(** * Protocol service of the Kelly assistant backend

    A shallow embedding of [backend/src/services/ProtocolService.ts], of the
    two tables it works on ([protocols] and [protocol_runs] of
    [kelly-assistant/backend/database/schema.sql]) and of the two callers that
    start runs ([StartProtocolIntentHandler.handle] and the REST route
    [POST /api/protocol/start]).

    Every method of the service is a sequence of [pool.query] calls.  A query
    is modelled as a function on the contents of the two tables; the
    constraints of the schema that depend on those contents (primary keys,
    [UNIQUE(user_id, name)], the foreign key of [protocol_runs.protocol_id],
    the range of [INTEGER] columns) are checked by the statements.  Whatever
    else can make [pool.query] reject (a lost connection, a value too long
    for its column) is left to an oracle that decides, query by query,
    whether the call rejects.  [uuidv4()] and [NOW()] are answered by the same
    oracle.

    Numbers are the integers a JavaScript [number] represents exactly, strings
    are byte strings and [LOWER] folds the ASCII letters.  [getProtocolHistory],
    a read on which nothing below depends, is left out. *)

From Stdlib Require Import ZArith List String Ascii Bool Lia DecimalString.
From Stdlib Require Import Permutation Sorted.
Import ListNotations.
Local Open Scope string_scope.
Local Open Scope Z_scope.

Set Implicit Arguments.

(* ------------------------------------------------------------------ *)
(** ** Data of the TypeScript interfaces *)

Definition Uuid := N.
Definition Timestamp := Z.

Inductive TimerType := countdown | stopwatch.

Module ProtocolStep.
Record t := mk
  { step : string;
    duration : Z;
    instructions : option string;
    timerType : option TimerType }.
End ProtocolStep.

Inductive RunStatus := in_progress | completed | cancelled.

Definition RunStatus_eqb (a b : RunStatus) : bool :=
  match a, b with
  | in_progress, in_progress | completed, completed | cancelled, cancelled => true
  | _, _ => false
  end.

Module Protocol.
Record t := mk
  { id : option Uuid;
    userId : string;
    name : string;
    description : option string;
    steps : list ProtocolStep.t;
    totalDuration : option Z;
    tags : option (list string);
    isActive : option bool;
    lastRun : option Timestamp;
    runCount : option Z;
    createdAt : option Timestamp;
    updatedAt : option Timestamp }.
End Protocol.

Module RunMetadata.
Record t := mk
  { protocolName : string;
    steps : list ProtocolStep.t }.
End RunMetadata.

Module ProtocolRun.
Record t := mk
  { id : option Uuid;
    protocolId : Uuid;
    userId : string;
    startedAt : option Timestamp;
    completedAt : option Timestamp;
    status : option RunStatus;
    currentStep : option Z;
    notes : option string;
    metadata : option RunMetadata.t }.
End ProtocolRun.

(* ------------------------------------------------------------------ *)
(** ** The two tables *)

(** A row of [protocols].  The columns that no statement ever sets to NULL
    are not optional. *)
Module protocols.
Record row := mk
  { id : Uuid;
    user_id : string;
    name : string;
    description : option string;
    steps : list ProtocolStep.t;
    total_duration : Z;
    tags : list string;
    is_active : bool;
    last_run : option Timestamp;
    run_count : Z;
    created_at : Timestamp;
    updated_at : Timestamp }.
End protocols.

(** A row of [protocol_runs]; its [metadata] column is never written and
    never read by the service. *)
Module protocol_runs.
Record row := mk
  { id : Uuid;
    protocol_id : Uuid;
    user_id : string;
    started_at : Timestamp;
    completed_at : option Timestamp;
    status : RunStatus;
    current_step : Z;
    notes : option string }.
End protocol_runs.

Record Database := mkDatabase
  { tbl_protocols : list protocols.row;
    tbl_protocol_runs : list protocol_runs.row }.

(* ------------------------------------------------------------------ *)
(** ** Values of SQL and of JavaScript *)

(** The range of a PostgreSQL [INTEGER]. *)
Definition is_int4 (z : Z) : bool := (-2147483648 <=? z) && (z <=? 2147483647).

Definition lower_ascii (c : ascii) : ascii :=
  let n := nat_of_ascii c in
  if ((65 <=? n) && (n <=? 90))%nat then ascii_of_nat (n + 32) else c.

Fixpoint LOWER (s : string) : string :=
  match s with
  | EmptyString => EmptyString
  | String c s' => String (lower_ascii c) (LOWER s')
  end.

(** [x || null] on an optional string: the empty string is falsy. *)
Definition or_null (x : option string) : option string :=
  match x with
  | Some EmptyString => None
  | _ => x
  end.

(** [x !== false] on an optional boolean. *)
Definition not_false (x : option bool) : bool :=
  match x with
  | Some false => false
  | _ => true
  end.

(** [ORDER BY]: insertion sort, [before a b] holds when [a] may precede [b]. *)
Section OrderBy.
Variable A : Type.
Variable before : A -> A -> bool.

Fixpoint insert_row (x : A) (l : list A) : list A :=
  match l with
  | [] => [x]
  | y :: l' => if before x y then x :: l else y :: insert_row x l'
  end.

Fixpoint order_by (l : list A) : list A :=
  match l with
  | [] => []
  | x :: l' => insert_row x (order_by l')
  end.
End OrderBy.

(* ------------------------------------------------------------------ *)
(** ** Errors, the world and the monad of the service *)

Inductive Error :=
| unique_violation
| foreign_key_violation
| numeric_value_out_of_range
| query_rejected
| TypeError.

Inductive Result (A : Type) :=
| Ok (a : A)
| Err (e : Error).
Arguments Ok {A} a.
Arguments Err {A} e.


(** What the outside answers at each step of the service: the identifier
    [uuidv4()] draws, the time [NOW()] reads, whether [pool.query] rejects. *)
Record Oracle := mkOracle
  { uuidv4_at : nat -> Uuid;
    NOW_at : nat -> Timestamp;
    rejects_at : nat -> bool }.

Record World := mkWorld
  { db : Database;
    tick : nat;
    oracle : Oracle }.

Definition M (A : Type) := World -> Result A * World.

Definition ret {A} (a : A) : M A := fun w => (Ok a, w).

Definition throw {A} (e : Error) : M A := fun w => (Err e, w).

Definition bind {A B} (m : M A) (k : A -> M B) : M B :=
  fun w =>
    match m w with
    | (Ok a, w') => k a w'
    | (Err e, w') => (Err e, w')
    end.

(** [try { m } catch (error) { h error }] *)
Definition try_catch {A} (m : M A) (h : Error -> M A) : M A :=
  fun w =>
    match m w with
    | (Ok a, w') => (Ok a, w')
    | (Err e, w') => h e w'
    end.

Declare Scope service_scope.
Delimit Scope service_scope with service.
Notation "x <- m ;; k" := (bind m (fun x => k))
  (at level 100, m at next level, right associativity) : service_scope.
Notation "m ;;; k" := (bind m (fun _ => k))
  (at level 100, right associativity) : service_scope.
Local Open Scope service_scope.

Definition next (w : World) : World :=
  mkWorld (db w) (S (tick w)) (oracle w).

Definition uuidv4 : M Uuid :=
  fun w => (Ok (uuidv4_at (oracle w) (tick w)), next w).

(** The result of a query: the rows it returns; [rowCount] is their number
    for the statements of this service, which all end in [RETURNING] or are
    [SELECT]s. *)
Definition rowCount {A} (rows : list A) : Z := Z.of_nat (List.length rows).

(** A statement runs at a time on the tables; it fails without effect or
    returns rows and the new tables. *)
Definition Statement (A : Type) := Timestamp -> Database -> Result (list A * Database).

Definition pool_query {A} (q : Statement A) : M (list A) :=
  fun w =>
    if rejects_at (oracle w) (tick w) then (Err query_rejected, next w)
    else
      match q (NOW_at (oracle w) (tick w)) (db w) with
      | Ok (rows, d) => (Ok rows, mkWorld d (S (tick w)) (oracle w))
      | Err e => (Err e, next w)
      end.

(** [console.error(...); throw error]: logging has no effect on the tables. *)
Definition log_and_rethrow {A} (m : M A) : M A :=
  try_catch m (fun e => throw e).

(* ------------------------------------------------------------------ *)
(** ** The statements of the service *)

Definition same_key (user_id name : string) (p : protocols.row) : bool :=
  String.eqb (protocols.user_id p) user_id && String.eqb (protocols.name p) name.

Definition has_id (i : Uuid) (p : protocols.row) : bool :=
  N.eqb (protocols.id p) i.

Definition run_has_id (i : Uuid) (r : protocol_runs.row) : bool :=
  N.eqb (protocol_runs.id r) i.

(** [UPDATE t SET ... WHERE c RETURNING id] *)
Definition update_where {A} (c : A -> bool) (set : A -> A) (t : list A) : list A :=
  map (fun x => if c x then set x else x) t.

(** [DO UPDATE SET description = EXCLUDED.description, steps = EXCLUDED.steps,
    total_duration = EXCLUDED.total_duration, tags = EXCLUDED.tags,
    updated_at = NOW()] *)
Definition do_update_set (description : option string) (steps : list ProtocolStep.t)
    (total_duration : Z) (tags : list string) (now : Timestamp)
    (p : protocols.row) : protocols.row :=
  protocols.mk (protocols.id p) (protocols.user_id p) (protocols.name p)
    description steps total_duration tags
    (protocols.is_active p) (protocols.last_run p) (protocols.run_count p)
    (protocols.created_at p) now.

(** [INSERT INTO protocols (id, user_id, name, description, steps,
    total_duration, tags, is_active) VALUES ($1, ..., $8)
    ON CONFLICT (user_id, name) DO UPDATE SET ... RETURNING id].
    The columns left out take their defaults: [last_run] NULL, [run_count] 0,
    [created_at] and [updated_at] [NOW()]. *)
Definition sql_upsert_protocol (id : Uuid) (user_id name : string)
    (description : option string) (steps : list ProtocolStep.t)
    (total_duration : Z) (tags : list string) (is_active : bool)
    : Statement Uuid :=
  fun now d =>
    let t := tbl_protocols d in
    if negb (is_int4 total_duration) then Err numeric_value_out_of_range
    else if existsb (same_key user_id name) t then
      Ok (map protocols.id (filter (same_key user_id name) t),
          mkDatabase
            (update_where (same_key user_id name)
               (do_update_set description steps total_duration tags now) t)
            (tbl_protocol_runs d))
    else if existsb (has_id id) t then Err unique_violation
    else
      Ok ([id],
          mkDatabase
            (t ++ [protocols.mk id user_id name description steps total_duration
                     tags is_active None 0 now now])
            (tbl_protocol_runs d)).

(** [SELECT * FROM protocols WHERE user_id = $1 AND LOWER(name) = LOWER($2)
    AND is_active = true] *)
Definition sql_select_protocol (user_id name : string) : Statement protocols.row :=
  fun _ d =>
    Ok (filter (fun p => String.eqb (protocols.user_id p) user_id
                         && String.eqb (LOWER (protocols.name p)) (LOWER name)
                         && protocols.is_active p)
          (tbl_protocols d), d).

(** [ORDER BY run_count DESC, updated_at DESC] *)
Definition most_used_first (a b : protocols.row) : bool :=
  (protocols.run_count b <? protocols.run_count a)
  || ((protocols.run_count a =? protocols.run_count b)
      && (protocols.updated_at b <=? protocols.updated_at a)).

(** [SELECT * FROM protocols WHERE user_id = $1 AND is_active = true
    ORDER BY run_count DESC, updated_at DESC] *)
Definition sql_list_protocols (user_id : string) : Statement protocols.row :=
  fun _ d =>
    Ok (order_by most_used_first
          (filter (fun p => String.eqb (protocols.user_id p) user_id
                            && protocols.is_active p)
             (tbl_protocols d)), d).

(** [INSERT INTO protocol_runs (id, protocol_id, user_id, status, current_step)
    VALUES ($1, $2, $3, 'in_progress', 0) RETURNING id].  [started_at] takes
    its default [NOW()]; [protocol_id] references [protocols(id)]. *)
Definition sql_insert_run (id protocol_id : Uuid) (user_id : string)
    : Statement Uuid :=
  fun now d =>
    if existsb (run_has_id id) (tbl_protocol_runs d) then Err unique_violation
    else if negb (existsb (has_id protocol_id) (tbl_protocols d))
    then Err foreign_key_violation
    else
      Ok ([id],
          mkDatabase (tbl_protocols d)
            (tbl_protocol_runs d
               ++ [protocol_runs.mk id protocol_id user_id now None in_progress 0 None])).

(** [SET last_run = NOW(), run_count = run_count + 1]; the trigger
    [update_protocols_updated_at] sets [updated_at] on every update of the
    table. *)
Definition set_last_run (now : Timestamp) (p : protocols.row) : protocols.row :=
  protocols.mk (protocols.id p) (protocols.user_id p) (protocols.name p)
    (protocols.description p) (protocols.steps p) (protocols.total_duration p)
    (protocols.tags p) (protocols.is_active p)
    (Some now) (protocols.run_count p + 1)
    (protocols.created_at p) now.

(** [UPDATE protocols SET last_run = NOW(), run_count = run_count + 1
    WHERE id = $1].  The sum must fit the [INTEGER] column. *)
Definition sql_update_last_run (protocol_id : Uuid) : Statement Uuid :=
  fun now d =>
    let t := tbl_protocols d in
    if existsb (fun p => has_id protocol_id p && negb (is_int4 (protocols.run_count p + 1))) t
    then Err numeric_value_out_of_range
    else
      Ok ([],
          mkDatabase (update_where (has_id protocol_id) (set_last_run now) t)
            (tbl_protocol_runs d)).

Definition set_current_step (n : Z) (r : protocol_runs.row) : protocol_runs.row :=
  protocol_runs.mk (protocol_runs.id r) (protocol_runs.protocol_id r)
    (protocol_runs.user_id r) (protocol_runs.started_at r)
    (protocol_runs.completed_at r) (protocol_runs.status r) n
    (protocol_runs.notes r).

(** [UPDATE protocol_runs SET current_step = $2 WHERE id = $1 RETURNING id] *)
Definition sql_update_run_step (id : Uuid) (stepNumber : Z) : Statement Uuid :=
  fun _ d =>
    let t := tbl_protocol_runs d in
    if negb (is_int4 stepNumber) then Err numeric_value_out_of_range
    else
      Ok (map protocol_runs.id (filter (run_has_id id) t),
          mkDatabase (tbl_protocols d)
            (update_where (run_has_id id) (set_current_step stepNumber) t)).

Definition set_completed (now : Timestamp) (notes : option string)
    (r : protocol_runs.row) : protocol_runs.row :=
  protocol_runs.mk (protocol_runs.id r) (protocol_runs.protocol_id r)
    (protocol_runs.user_id r) (protocol_runs.started_at r)
    (Some now) completed (protocol_runs.current_step r) notes.

(** [UPDATE protocol_runs SET status = 'completed', completed_at = NOW(),
    notes = $2 WHERE id = $1 RETURNING id] *)
Definition sql_complete_run (id : Uuid) (notes : option string) : Statement Uuid :=
  fun now d =>
    let t := tbl_protocol_runs d in
    Ok (map protocol_runs.id (filter (run_has_id id) t),
        mkDatabase (tbl_protocols d)
          (update_where (run_has_id id) (set_completed now notes) t)).

Definition set_cancelled (now : Timestamp) (r : protocol_runs.row)
    : protocol_runs.row :=
  protocol_runs.mk (protocol_runs.id r) (protocol_runs.protocol_id r)
    (protocol_runs.user_id r) (protocol_runs.started_at r)
    (Some now) cancelled (protocol_runs.current_step r) (protocol_runs.notes r).

(** [UPDATE protocol_runs SET status = 'cancelled', completed_at = NOW()
    WHERE id = $1 RETURNING id] *)
Definition sql_cancel_run (id : Uuid) : Statement Uuid :=
  fun now d =>
    let t := tbl_protocol_runs d in
    Ok (map protocol_runs.id (filter (run_has_id id) t),
        mkDatabase (tbl_protocols d)
          (update_where (run_has_id id) (set_cancelled now) t)).

(** [FROM protocol_runs pr JOIN protocols p ON pr.protocol_id = p.id] *)
Definition join_runs_protocols (d : Database)
    : list (protocol_runs.row * protocols.row) :=
  flat_map
    (fun pr => map (fun p => (pr, p))
                 (filter (has_id (protocol_runs.protocol_id pr)) (tbl_protocols d)))
    (tbl_protocol_runs d).

Definition active_of (user_id : string) (pr : protocol_runs.row) : bool :=
  String.eqb (protocol_runs.user_id pr) user_id
  && RunStatus_eqb (protocol_runs.status pr) in_progress.

(** [ORDER BY pr.started_at DESC] *)
Definition latest_first (a b : protocol_runs.row * protocols.row) : bool :=
  protocol_runs.started_at (fst b) <=? protocol_runs.started_at (fst a).

(** [SELECT pr.*, p.name as protocol_name, p.steps FROM protocol_runs pr
    JOIN protocols p ON pr.protocol_id = p.id
    WHERE pr.user_id = $1 AND pr.status = 'in_progress'
    ORDER BY pr.started_at DESC LIMIT 1] *)
Definition sql_select_active_run (user_id : string)
    : Statement (protocol_runs.row * protocols.row) :=
  fun _ d =>
    Ok (firstn 1
          (order_by latest_first
             (filter (fun x => active_of user_id (fst x)) (join_runs_protocols d))),
        d).

Definition set_inactive (now : Timestamp) (p : protocols.row) : protocols.row :=
  protocols.mk (protocols.id p) (protocols.user_id p) (protocols.name p)
    (protocols.description p) (protocols.steps p) (protocols.total_duration p)
    (protocols.tags p) false (protocols.last_run p) (protocols.run_count p)
    (protocols.created_at p) now.

Definition owned (id : Uuid) (user_id : string) (p : protocols.row) : bool :=
  has_id id p && String.eqb (protocols.user_id p) user_id.

(** [UPDATE protocols SET is_active = false WHERE id = $1 AND user_id = $2
    RETURNING id] *)
Definition sql_soft_delete (id : Uuid) (user_id : string) : Statement Uuid :=
  fun now d =>
    let t := tbl_protocols d in
    Ok (map protocols.id (filter (owned id user_id) t),
        mkDatabase (update_where (owned id user_id) (set_inactive now) t)
          (tbl_protocol_runs d)).

(* ------------------------------------------------------------------ *)
(** ** ProtocolService *)

(** [rows[0].id]: reading a field of [undefined] is a [TypeError]. *)
Definition first_row {A} (rows : list A) : M A :=
  match rows with
  | r :: _ => ret r
  | [] => throw TypeError
  end.

(** [protocol.steps.reduce((sum, step) => sum + step.duration, 0)] *)
Definition sum_durations (steps : list ProtocolStep.t) : Z :=
  fold_left (fun sum step => sum + ProtocolStep.duration step) steps 0.

Definition tags_or_empty (tags : option (list string)) : list string :=
  match tags with
  | Some l => l
  | None => []
  end.

Definition createProtocol (protocol : Protocol.t) : M Uuid :=
  id <- uuidv4 ;;
  let totalDuration := sum_durations (Protocol.steps protocol) in
  log_and_rethrow
    (rows <- pool_query
               (sql_upsert_protocol id
                  (Protocol.userId protocol)
                  (Protocol.name protocol)
                  (or_null (Protocol.description protocol))
                  (Protocol.steps protocol)
                  totalDuration
                  (tags_or_empty (Protocol.tags protocol))
                  (not_false (Protocol.isActive protocol))) ;;
     first_row rows).

Definition protocol_of_row (row : protocols.row) : Protocol.t :=
  Protocol.mk
    (Some (protocols.id row))
    (protocols.user_id row)
    (protocols.name row)
    (protocols.description row)
    (protocols.steps row)
    (Some (protocols.total_duration row))
    (Some (protocols.tags row))
    (Some (protocols.is_active row))
    (protocols.last_run row)
    (Some (protocols.run_count row))
    (Some (protocols.created_at row))
    (Some (protocols.updated_at row)).

Definition getProtocol (userId name : string) : M (option Protocol.t) :=
  log_and_rethrow
    (rows <- pool_query (sql_select_protocol userId name) ;;
     match rows with
     | [] => ret None
     | row :: _ => ret (Some (protocol_of_row row))
     end).

Definition listProtocols (userId : string) : M (list Protocol.t) :=
  log_and_rethrow
    (rows <- pool_query (sql_list_protocols userId) ;;
     ret (map protocol_of_row rows)).

Definition startProtocolRun (protocolId : Uuid) (userId : string) : M Uuid :=
  runId <- uuidv4 ;;
  log_and_rethrow
    (rows <- pool_query (sql_insert_run runId protocolId userId) ;;
     (pool_query (sql_update_last_run protocolId) ;;;
      first_row rows)).

Definition updateProtocolRunStep (runId : Uuid) (stepNumber : Z) : M bool :=
  log_and_rethrow
    (rows <- pool_query (sql_update_run_step runId stepNumber) ;;
     ret (0 <? rowCount rows)).

Definition completeProtocolRun (runId : Uuid) (notes : option string) : M bool :=
  log_and_rethrow
    (rows <- pool_query (sql_complete_run runId (or_null notes)) ;;
     ret (0 <? rowCount rows)).

Definition cancelProtocolRun (runId : Uuid) : M bool :=
  log_and_rethrow
    (rows <- pool_query (sql_cancel_run runId) ;;
     ret (0 <? rowCount rows)).

Definition run_of_row (x : protocol_runs.row * protocols.row) : ProtocolRun.t :=
  let (row, p) := x in
  ProtocolRun.mk
    (Some (protocol_runs.id row))
    (protocol_runs.protocol_id row)
    (protocol_runs.user_id row)
    (Some (protocol_runs.started_at row))
    (protocol_runs.completed_at row)
    (Some (protocol_runs.status row))
    (Some (protocol_runs.current_step row))
    (protocol_runs.notes row)
    (Some (RunMetadata.mk (protocols.name p) (protocols.steps p))).

Definition getActiveRun (userId : string) : M (option ProtocolRun.t) :=
  log_and_rethrow
    (rows <- pool_query (sql_select_active_run userId) ;;
     match rows with
     | [] => ret None
     | row :: _ => ret (Some (run_of_row row))
     end).

Definition deleteProtocol (id : Uuid) (userId : string) : M bool :=
  log_and_rethrow
    (rows <- pool_query (sql_soft_delete id userId) ;;
     ret (0 <? rowCount rows)).

(* ------------------------------------------------------------------ *)
(** ** The callers that start a run *)

(** A template literal prints an integer in decimal. *)
Definition string_of_number (z : Z) : string :=
  NilZero.string_of_int (Z.to_int z).

(** What the skill answers: the speech, the reprompt and, when the handler
    sets them, the session attributes [activeProtocolRun] and [currentStep]. *)
Module Response.
Record t := mk
  { speak : string;
    reprompt : option string;
    sessionAttributes : option (Uuid * Z) }.
End Response.

Inductive Request :=
| IntentRequest (protocolName : option string)
| OtherRequest.

(** The timer surface of the device, outside the service: no consent token
    or no client factory, a timer created, or [createTimer] throwing. *)
Inductive TimerSurface := no_timer_permission | timer_created | timer_failed.

Definition timer_speech (timer : TimerSurface) (minutes : string) : string :=
  match timer with
  | timer_created => "I'll set a timer for " ++ minutes ++ " minutes."
  | timer_failed =>
      "I'll set a timer for " ++ minutes ++ " minutes."
      ++ " Actually, please set your own timer for " ++ minutes ++ " minutes."
  | no_timer_permission => " Please set a timer for " ++ minutes ++ " minutes."
  end.

Definition number_or_undefined (x : option Z) : string :=
  match x with
  | Some z => string_of_number z
  | None => "undefined"
  end.

Module StartProtocolIntentHandler.

Definition already_running (protocolName : string) : Response.t :=
  Response.mk
    ("You're already running a protocol. Would you like to cancel it and start "
     ++ protocolName ++ " instead?")
    (Some "Say yes to switch protocols, or no to continue the current one.")
    None.

Definition no_such_protocol (protocolName : string) : Response.t :=
  Response.mk
    ("I don't have a protocol called " ++ protocolName
     ++ ". Would you like me to create one?")
    (Some "You can tell me the steps for this protocol.")
    None.

Definition trouble : Response.t :=
  Response.mk "Sorry, I had trouble starting that protocol. Please try again."
    None None.

Definition started (protocol : Protocol.t) (firstStep : ProtocolStep.t)
    (timer : TimerSurface) (runId : Uuid) : Response.t :=
  let minutes := string_of_number (ProtocolStep.duration firstStep) in
  Response.mk
    ("Starting " ++ Protocol.name protocol ++ " protocol. "
     ++ "This will take " ++ number_or_undefined (Protocol.totalDuration protocol)
     ++ " minutes total. "
     ++ "First step: " ++ ProtocolStep.step firstStep ++ " for " ++ minutes
     ++ " minutes. "
     ++ timer_speech timer minutes)
    (Some "Let me know when you're ready for the next step.")
    (Some (runId, 0)).

(** The handler proper.  [protocol.id!] is the id [getProtocol] read from the
    row, so the branch without id is never taken; [protocol.steps[0]] is
    [undefined] for a definition without steps, and reading its [step] throws
    after the run is started. *)
Definition handle (request : Request) (timer : TimerSurface) : M Response.t :=
  match request with
  | OtherRequest =>
      ret (Response.mk "Sorry, I couldn't process that request." None None)
  | IntentRequest None | IntentRequest (Some EmptyString) =>
      ret (Response.mk "Which protocol would you like to start?"
             (Some "You can say things like: start red light protocol, or start morning routine.")
             None)
  | IntentRequest (Some protocolName) =>
      try_catch
        (protocol <- getProtocol "kelly" protocolName ;;
         match protocol with
         | None => ret (no_such_protocol protocolName)
         | Some protocol =>
             activeRun <- getActiveRun "kelly" ;;
             match activeRun with
             | Some _ => ret (already_running protocolName)
             | None =>
                 match Protocol.id protocol with
                 | None => throw TypeError
                 | Some id =>
                     runId <- startProtocolRun id "kelly" ;;
                     match nth_error (Protocol.steps protocol) 0 with
                     | None => throw TypeError
                     | Some firstStep => ret (started protocol firstStep timer runId)
                     end
                 end
             end
         end)
        (fun _ => ret trouble)
  end.

End StartProtocolIntentHandler.

(** [app.post('/api/protocol/start', ...)] of the REST server. *)
Inductive HttpResponse :=
| status_200 (runId : Uuid) (protocol : Protocol.t)
| status_404
| status_500.

Definition api_protocol_start (userId protocolName : string) : M HttpResponse :=
  try_catch
    (protocol <- getProtocol userId protocolName ;;
     match protocol with
     | None => ret status_404
     | Some protocol =>
         match Protocol.id protocol with
         | None => throw TypeError
         | Some id =>
             runId <- startProtocolRun id userId ;;
             ret (status_200 runId protocol)
         end
     end)
    (fun _ => ret status_500).

(* ------------------------------------------------------------------ *)
(** ** The sample rows of the schema *)

Definition plain_step (step : string) (duration : Z) : ProtocolStep.t :=
  ProtocolStep.mk step duration None None.

Definition red_light_steps : list ProtocolStep.t :=
  [plain_step "neck" 3; plain_step "left cheek" 3;
   plain_step "right cheek" 3; plain_step "chest" 5].

Definition red_light : Protocol.t :=
  Protocol.mk None "kelly" "red light" (Some "Red light therapy protocol")
    red_light_steps None (Some ["health"; "therapy"; "daily"]) None
    None None None None.

Definition empty_db : Database := mkDatabase [] [].

(** An outside where no query rejects, the clock shows the step number and
    [uuidv4()] draws 1, 2, 3, ... *)
Definition calm : Oracle :=
  mkOracle (fun k => N.of_nat (S k)) (fun k => Z.of_nat k) (fun _ => false).

Definition start_of (d : Database) (o : Oracle) : World := mkWorld d 0 o.

(** The two rows the schema inserts into [protocols]; their identifiers come
    from [uuid_generate_v4()] and their times from [NOW()]. *)
Definition sample_db (id1 id2 : Uuid) (now : Timestamp) : Database :=
  mkDatabase
    [protocols.mk id1 "kelly" "red light" (Some "Red light therapy protocol")
       red_light_steps 14 ["health"; "therapy"; "daily"] true None 0 now now;
     protocols.mk id2 "kelly" "morning routine" (Some "Standard morning routine")
       [plain_step "meditation" 10; plain_step "skincare" 5;
        plain_step "breakfast prep" 15]
       30 ["routine"; "morning"; "daily"] true None 0 now now]
    [].

(** The world once kelly's red light protocol is created (its id is 1), and
    the world once a run of it is started (the id of the run is 3). *)
Definition kelly_world : World :=
  snd (createProtocol red_light (start_of empty_db calm)).

Definition one_run_world : World :=
  snd (startProtocolRun 1%N "kelly" kelly_world).

Definition two_runs_world : World :=
  snd (startProtocolRun 1%N "kelly" one_run_world).

(** The world once that run is completed with a note, and the world once
    the protocol is soft-deleted instead. *)
Definition completed_world : World :=
  snd (completeProtocolRun 3%N (Some "done") one_run_world).

Definition deleted_world : World :=
  snd (deleteProtocol 1%N "kelly" kelly_world).

(** kelly's world with an outside that rejects the query of step 4, and with a
    red light protocol that has run 2147483647 times. *)
Definition flaky : Oracle :=
  mkOracle (fun k => N.of_nat (S k)) (fun k => Z.of_nat k) (fun k => Nat.eqb k 4).

Definition flaky_world : World := mkWorld (db kelly_world) 2 flaky.

Definition worn_world : World :=
  mkWorld
    (mkDatabase
       (update_where (has_id 1%N)
          (fun p =>
             protocols.mk (protocols.id p) (protocols.user_id p) (protocols.name p)
               (protocols.description p) (protocols.steps p)
               (protocols.total_duration p) (protocols.tags p)
               (protocols.is_active p) (protocols.last_run p) 2147483647
               (protocols.created_at p) (protocols.updated_at p))
          (tbl_protocols (db kelly_world)))
       [])
    2 calm.

(** What the three updates of [protocol_runs] make of a row. *)
Definition stepped (stepNumber : Z) (r r' : protocol_runs.row) : Prop :=
  r' = protocol_runs.mk (protocol_runs.id r) (protocol_runs.protocol_id r)
         (protocol_runs.user_id r) (protocol_runs.started_at r)
         (protocol_runs.completed_at r) (protocol_runs.status r)
         stepNumber (protocol_runs.notes r).

Definition ended (status : RunStatus) (now : Timestamp) (notes : option string)
    (r r' : protocol_runs.row) : Prop :=
  r' = protocol_runs.mk (protocol_runs.id r) (protocol_runs.protocol_id r)
         (protocol_runs.user_id r) (protocol_runs.started_at r)
         (Some now) status (protocol_runs.current_step r) notes.

(** What [startProtocolRun] makes of the row of the protocol. *)
Definition run_counted (now : Timestamp) (p p' : protocols.row) : Prop :=
  p' = protocols.mk (protocols.id p) (protocols.user_id p) (protocols.name p)
         (protocols.description p) (protocols.steps p) (protocols.total_duration p)
         (protocols.tags p) (protocols.is_active p)
         (Some now) (protocols.run_count p + 1)
         (protocols.created_at p) now.

(** A run as [getActiveRun] returns it, shown with the given name and steps. *)
Definition with_definition (run : ProtocolRun.t) (name : string)
    (steps : list ProtocolStep.t) : ProtocolRun.t :=
  ProtocolRun.mk (ProtocolRun.id run) (ProtocolRun.protocolId run)
    (ProtocolRun.userId run) (ProtocolRun.startedAt run)
    (ProtocolRun.completedAt run) (ProtocolRun.status run)
    (ProtocolRun.currentStep run) (ProtocolRun.notes run)
    (Some (RunMetadata.mk name steps)).

(** The rows of a table after an update: those with the given id changed as
    [change] says, the others as they were. *)
Definition updated_by_id {A} (id_of : A -> Uuid) (id : Uuid) (change : A -> A -> Prop)
    (t t' : list A) : Prop :=
  Forall2 (fun r r' => if N.eqb (id_of r) id then change r r' else r' = r) t t'.



Definition face_steps : list ProtocolStep.t :=
  [plain_step "forehead" 10; plain_step "chin" 2].

Definition Red_Light : Protocol.t :=
  Protocol.mk None "kelly" "Red Light" None face_steps None None None
    None None None None.

Definition red_light_revised : Protocol.t :=
  Protocol.mk None "kelly" "red light" None face_steps None None None
    None None None None.

(* ------------------------------------------------------------------ *)
(** ** Sequences of calls *)

Inductive Call :=
| call_createProtocol (protocol : Protocol.t)
| call_getProtocol (userId name : string)
| call_listProtocols (userId : string)
| call_startProtocolRun (protocolId : Uuid) (userId : string)
| call_updateProtocolRunStep (runId : Uuid) (stepNumber : Z)
| call_completeProtocolRun (runId : Uuid) (notes : option string)
| call_cancelProtocolRun (runId : Uuid)
| call_getActiveRun (userId : string)
| call_deleteProtocol (id : Uuid) (userId : string)
| call_StartProtocolIntent (request : Request) (timer : TimerSurface)
| call_api_protocol_start (userId protocolName : string).

(** The world a computation leaves, whatever it returns or throws. *)
Definition after {A} (m : M A) (w : World) : World := snd (m w).

Definition perform (c : Call) : World -> World :=
  match c with
  | call_createProtocol protocol => after (createProtocol protocol)
  | call_getProtocol userId name => after (getProtocol userId name)
  | call_listProtocols userId => after (listProtocols userId)
  | call_startProtocolRun protocolId userId => after (startProtocolRun protocolId userId)
  | call_updateProtocolRunStep runId n => after (updateProtocolRunStep runId n)
  | call_completeProtocolRun runId notes => after (completeProtocolRun runId notes)
  | call_cancelProtocolRun runId => after (cancelProtocolRun runId)
  | call_getActiveRun userId => after (getActiveRun userId)
  | call_deleteProtocol id userId => after (deleteProtocol id userId)
  | call_StartProtocolIntent request timer =>
      after (StartProtocolIntentHandler.handle request timer)
  | call_api_protocol_start userId protocolName =>
      after (api_protocol_start userId protocolName)
  end.

Definition perform_all (calls : list Call) (w : World) : World :=
  fold_left (fun w c => perform c w) calls w.

(* ------------------------------------------------------------------ *)
(** ** Properties of the tables *)


(** The number of [in_progress] runs of an owner. *)
Definition active_runs (userId : string) (d : Database) : list protocol_runs.row :=
  filter (active_of userId) (tbl_protocol_runs d).

Definition at_most_one_active (userId : string) (d : Database) : Prop :=
  (List.length (active_runs userId d) <= 1)%nat.

(** The foreign key of [protocol_runs.protocol_id]. *)
Definition foreign_key_ok (d : Database) : bool :=
  forallb (fun pr => existsb (has_id (protocol_runs.protocol_id pr)) (tbl_protocols d))
    (tbl_protocol_runs d).

Fixpoint distinct {A} (eqb : A -> A -> bool) (l : list A) : bool :=
  match l with
  | [] => true
  | x :: l' => negb (existsb (eqb x) l') && distinct eqb l'
  end.

(** The primary key of [protocols]. *)
Definition primary_key_ok (d : Database) : bool :=
  distinct N.eqb (map protocols.id (tbl_protocols d)).

(** [UNIQUE(user_id, name)] of [protocols]. *)
Definition key_eqb (a b : string * string) : bool :=
  String.eqb (fst a) (fst b) && String.eqb (snd a) (snd b).

Definition key_of (p : protocols.row) : string * string :=
  (protocols.user_id p, protocols.name p).

Definition unique_user_name_ok (d : Database) : bool :=
  distinct key_eqb (map key_of (tbl_protocols d)).

(** What [ON CONFLICT ... DO UPDATE] of [createProtocol] may do to a row:
    [p'] is [p] with description, steps, total, tags and [updated_at]
    replaced and every other column as it was. *)
Definition revised_by (protocol : Protocol.t) (now : Timestamp)
    (p p' : protocols.row) : Prop :=
  protocols.id p' = protocols.id p /\
  protocols.user_id p' = protocols.user_id p /\
  protocols.name p' = protocols.name p /\
  protocols.is_active p' = protocols.is_active p /\
  protocols.last_run p' = protocols.last_run p /\
  protocols.run_count p' = protocols.run_count p /\
  protocols.created_at p' = protocols.created_at p /\
  protocols.description p' = or_null (Protocol.description protocol) /\
  protocols.steps p' = Protocol.steps protocol /\
  protocols.total_duration p' = sum_durations (Protocol.steps protocol) /\
  protocols.tags p' = tags_or_empty (Protocol.tags protocol) /\
  protocols.updated_at p' = now.

(** The constraints of the schema on the two tables. *)
Definition schema_ok (d : Database) : Prop :=
  primary_key_ok d = true /\ unique_user_name_ok d = true /\ foreign_key_ok d = true.

(** A computation keeps a property of the tables when the property holds of
    every world it can leave, however it ends. *)
Definition keeps (I : Database -> Prop) {A} (m : M A) : Prop :=
  forall w, I (db w) -> I (db (after m w)).

Definition stmt_keeps (I : Database -> Prop) {A} (q : Statement A) : Prop :=
  forall now d rows d', I d -> q now d = Ok (rows, d') -> I d'.

(* ------------------------------------------------------------------ *)
(** ** The rest of the service and of its callers *)

(** A run as [getProtocolHistory] returns it: its [metadata] holds the name of
    the protocol and nothing else. *)
Module HistoryRun.
Record t := mk
  { id : option Uuid;
    protocolId : Uuid;
    userId : string;
    startedAt : option Timestamp;
    completedAt : option Timestamp;
    status : option RunStatus;
    currentStep : option Z;
    notes : option string;
    protocolName : string }.
End HistoryRun.

Definition of_user (user_id : string) (x : protocol_runs.row * protocols.row) : bool :=
  String.eqb (protocol_runs.user_id (fst x)) user_id.

Definition of_protocol (protocol_id : Uuid) (x : protocol_runs.row * protocols.row)
    : bool :=
  N.eqb (protocol_runs.protocol_id (fst x)) protocol_id.

(** [LIMIT n]: the server rejects a negative [n]. *)
Definition LIMIT {A} (n : Z) (rows : list A) : Result (list A) :=
  if n <? 0 then Err query_rejected else Ok (firstn (Z.to_nat n) rows).

(** [SELECT pr.*, p.name as protocol_name FROM protocol_runs pr
    JOIN protocols p ON pr.protocol_id = p.id WHERE pr.user_id = $1
    ORDER BY pr.started_at DESC LIMIT $2] *)
Definition sql_select_history (user_id : string) (limit : Z)
    : Statement (protocol_runs.row * protocols.row) :=
  fun _ d =>
    match LIMIT limit
            (order_by latest_first (filter (of_user user_id) (join_runs_protocols d))) with
    | Ok rows => Ok (rows, d)
    | Err e => Err e
    end.

(** The same with [AND pr.protocol_id = $2] and [LIMIT $3]. *)
Definition sql_select_history_of (user_id : string) (protocol_id : Uuid) (limit : Z)
    : Statement (protocol_runs.row * protocols.row) :=
  fun _ d =>
    match LIMIT limit
            (order_by latest_first
               (filter (fun x => of_user user_id x && of_protocol protocol_id x)
                  (join_runs_protocols d))) with
    | Ok rows => Ok (rows, d)
    | Err e => Err e
    end.

Definition history_of_row (x : protocol_runs.row * protocols.row) : HistoryRun.t :=
  let (row, p) := x in
  HistoryRun.mk
    (Some (protocol_runs.id row))
    (protocol_runs.protocol_id row)
    (protocol_runs.user_id row)
    (Some (protocol_runs.started_at row))
    (protocol_runs.completed_at row)
    (Some (protocol_runs.status row))
    (Some (protocol_runs.current_step row))
    (protocol_runs.notes row)
    (protocols.name p).

(** [limit: number = 10] *)
Definition limit_or_10 (limit : option Z) : Z :=
  match limit with
  | Some n => n
  | None => 10
  end.

Definition getProtocolHistory (userId : string) (protocolId : option Uuid)
    (limit : option Z) : M (list HistoryRun.t) :=
  log_and_rethrow
    (rows <- match protocolId with
             | Some protocolId =>
                 pool_query (sql_select_history_of userId protocolId (limit_or_10 limit))
             | None => pool_query (sql_select_history userId (limit_or_10 limit))
             end ;;
     ret (map history_of_row rows)).

(** [app.get('/api/protocols', ...)] of the REST server. *)
Inductive ProtocolsResponse :=
| protocols_200 (protocols : list Protocol.t)
| protocols_400
| protocols_500.

Definition api_protocols (userId : option string) : M ProtocolsResponse :=
  try_catch
    (match userId with
     | None | Some EmptyString => ret protocols_400
     | Some userId =>
         protocols <- listProtocols userId ;;
         ret (protocols_200 protocols)
     end)
    (fun _ => ret protocols_500).

(** What [parseProtocolDefinition] answers; the language model and the
    regular expressions behind it are outside. *)
Module ParsedProtocol.
Record t := mk
  { name : string;
    description : string;
    steps : list ProtocolStep.t;
    tags : list string }.
End ParsedProtocol.

Module CreateProtocolIntentHandler.

Definition already_exists (name : string) : Response.t :=
  Response.mk
    ("You already have a " ++ name ++ " protocol. Would you like to update it?")
    (Some "Say yes to update the protocol, or no to keep the existing one.")
    None.

Definition not_understood : Response.t :=
  Response.mk
    "I couldn't understand the protocol steps. Please describe them clearly with durations."
    (Some "Tell me each step and how many minutes it takes.")
    None.

Definition trouble : Response.t :=
  Response.mk "Sorry, I had trouble creating that protocol. Please try again."
    None None.

Definition step_speech (s : ProtocolStep.t) : string :=
  ProtocolStep.step s ++ " for " ++ string_of_number (ProtocolStep.duration s)
  ++ " minutes".

Definition created (parsedProtocol : ParsedProtocol.t) : Response.t :=
  let totalDuration := sum_durations (ParsedProtocol.steps parsedProtocol) in
  Response.mk
    ("I've created the " ++ ParsedProtocol.name parsedProtocol ++ " protocol with "
     ++ string_of_number (Z.of_nat (List.length (ParsedProtocol.steps parsedProtocol)))
     ++ " steps, "
     ++ "taking " ++ string_of_number totalDuration ++ " minutes total. "
     ++ "The steps are: "
     ++ String.concat ", " (map step_speech (ParsedProtocol.steps parsedProtocol))
     ++ ". You can start it anytime by saying: start "
     ++ ParsedProtocol.name parsedProtocol ++ ".")
    None None.

Definition new_protocol (parsedProtocol : ParsedProtocol.t) : Protocol.t :=
  Protocol.mk None "kelly"
    (ParsedProtocol.name parsedProtocol)
    (Some (ParsedProtocol.description parsedProtocol))
    (ParsedProtocol.steps parsedProtocol)
    None
    (Some (ParsedProtocol.tags parsedProtocol))
    None None None None None.

(** The handler, given what [parseProtocolDefinition] answers for the slot. *)
Definition handle (request : Request) (parsed : option ParsedProtocol.t)
    : M Response.t :=
  match request with
  | OtherRequest =>
      ret (Response.mk "Sorry, I couldn't process that request." None None)
  | IntentRequest None | IntentRequest (Some EmptyString) =>
      ret (Response.mk
             "What protocol would you like to create? Tell me the name and steps."
             (Some "For example, say: Create red light protocol with 3 minutes neck, 3 minutes each cheek, 5 minutes chest.")
             None)
  | IntentRequest (Some _) =>
      try_catch
        (match parsed with
         | None => ret not_understood
         | Some parsedProtocol =>
             existing <- getProtocol "kelly" (ParsedProtocol.name parsedProtocol) ;;
             match existing with
             | Some _ => ret (already_exists (ParsedProtocol.name parsedProtocol))
             | None =>
                 (createProtocol (new_protocol parsedProtocol) ;;;
                  ret (created parsedProtocol))
             end
         end)
        (fun _ => ret trouble)
  end.

End CreateProtocolIntentHandler.

(** Every call there is: those of [Call] and the three above. *)
Inductive AnyCall :=
| call_of (c : Call)
| call_getProtocolHistory (userId : string) (protocolId : option Uuid) (limit : option Z)
| call_api_protocols (userId : option string)
| call_CreateProtocolIntent (request : Request) (parsed : option ParsedProtocol.t).

Definition perform_any (c : AnyCall) : World -> World :=
  match c with
  | call_of c => perform c
  | call_getProtocolHistory userId protocolId limit =>
      after (getProtocolHistory userId protocolId limit)
  | call_api_protocols userId => after (api_protocols userId)
  | call_CreateProtocolIntent request parsed =>
      after (CreateProtocolIntentHandler.handle request parsed)
  end.

Definition perform_any_all (calls : list AnyCall) (w : World) : World :=
  fold_left (fun w c => perform_any c w) calls w.



(** Whether the owner has a row whose name is the given one up to letter
    case, and whether an active one. *)
Definition named_like (user_id name : string) (p : protocols.row) : bool :=
  String.eqb (protocols.user_id p) user_id
  && String.eqb (LOWER (protocols.name p)) (LOWER name).

Definition visible_as (user_id name : string) (p : protocols.row) : bool :=
  named_like user_id name p && protocols.is_active p.

(** The runs of a protocol that [protocol_runs] records. *)
Definition runs_of (protocol_id : Uuid) (d : Database) : list protocol_runs.row :=
  filter (fun r => N.eqb (protocol_runs.protocol_id r) protocol_id)
    (tbl_protocol_runs d).

(** No counter is ahead of the runs recorded for its protocol. *)
Definition counters_bounded (d : Database) : Prop :=
  forall p, In p (tbl_protocols d) ->
    protocols.run_count p <= Z.of_nat (List.length (runs_of (protocols.id p) d)).

(** The run with the given id is there and is not in progress. *)
Definition run_is_over (runId : Uuid) (d : Database) : Prop :=
  existsb (run_has_id runId) (tbl_protocol_runs d) = true
  /\ forall r, In r (tbl_protocol_runs d) ->
       protocol_runs.id r = runId -> protocol_runs.status r <> in_progress.

(** The rows given are still in the tables, under the same id and with what
    identifies them as it was. *)
Definition same_run (r r' : protocol_runs.row) : Prop :=
  protocol_runs.id r' = protocol_runs.id r
  /\ protocol_runs.protocol_id r' = protocol_runs.protocol_id r
  /\ protocol_runs.user_id r' = protocol_runs.user_id r
  /\ protocol_runs.started_at r' = protocol_runs.started_at r.

Definition same_protocol (p p' : protocols.row) : Prop :=
  protocols.id p' = protocols.id p
  /\ protocols.user_id p' = protocols.user_id p
  /\ protocols.name p' = protocols.name p
  /\ protocols.created_at p' = protocols.created_at p.

Definition rows_remain (ps : list protocols.row) (rs : list protocol_runs.row)
    (d : Database) : Prop :=
  (forall p, In p ps -> exists p', In p' (tbl_protocols d) /\ same_protocol p p')
  /\ (forall r, In r rs -> exists r', In r' (tbl_protocol_runs d) /\ same_run r r').

(** Every row of [d] is still in [d'], under the same id and with what
    identifies it as it was. *)
Definition tables_grow (d d' : Database) : Prop :=
  rows_remain (tbl_protocols d) (tbl_protocol_runs d) d'.

(** The definitions that belong to other owners than the given one. *)
Definition of_others (user_id : string) (d : Database) : list protocols.row :=
  filter (fun p => negb (String.eqb (protocols.user_id p) user_id)) (tbl_protocols d).

(* ------------------------------------------------------------------ *)
(** ** Rules for [keeps] *)

Section Keeps.
Variable I : Database -> Prop.

Lemma keeps_ret {A} (a : A) : keeps I (ret a).
Proof. intros w H. exact H. Qed.

Lemma keeps_throw {A} (e : Error) : keeps I (@throw A e).
Proof. intros w H. exact H. Qed.

Lemma keeps_uuidv4 : keeps I uuidv4.
Proof. intros w H. exact H. Qed.

Lemma keeps_bind {A B} (m : M A) (k : A -> M B) :
  keeps I m -> (forall a, keeps I (k a)) -> keeps I (bind m k).
Proof.
  intros Hm Hk w H. unfold after, bind.
  specialize (Hm w H). unfold after in Hm.
  destruct (m w) as [[a | e] w1]; simpl in *.
  - apply (Hk a w1 Hm).
  - exact Hm.
Qed.

Lemma keeps_try_catch {A} (m : M A) (h : Error -> M A) :
  keeps I m -> (forall e, keeps I (h e)) -> keeps I (try_catch m h).
Proof.
  intros Hm Hh w H. unfold after, try_catch.
  specialize (Hm w H). unfold after in Hm.
  destruct (m w) as [[a | e] w1]; simpl in *.
  - exact Hm.
  - apply (Hh e w1 Hm).
Qed.

Lemma keeps_log_and_rethrow {A} (m : M A) :
  keeps I m -> keeps I (log_and_rethrow m).
Proof.
  intros Hm. apply keeps_try_catch; [exact Hm | intros e; apply keeps_throw].
Qed.

Lemma keeps_pool_query {A} (q : Statement A) :
  stmt_keeps I q -> keeps I (pool_query q).
Proof.
  intros Hq w H. unfold after, pool_query.
  destruct (rejects_at (oracle w) (tick w)); [exact H|].
  destruct (q (NOW_at (oracle w) (tick w)) (db w)) as [[rows d'] | e] eqn:E.
  - simpl. eapply Hq; eauto.
  - exact H.
Qed.

Lemma keeps_first_row {A} (rows : list A) : keeps I (first_row rows).
Proof. destruct rows; [apply keeps_throw | apply keeps_ret]. Qed.

(** A statement that only reads keeps everything. *)
Lemma stmt_keeps_read {A} (q : Statement A) :
  (forall now d rows d', q now d = Ok (rows, d') -> d' = d) -> stmt_keeps I q.
Proof. intros Hq now d rows d' H E. rewrite (Hq _ _ _ _ E). exact H. Qed.
End Keeps.

Lemma sql_select_protocol_reads userId name now d rows d' :
  sql_select_protocol userId name now d = Ok (rows, d') -> d' = d.
Proof. unfold sql_select_protocol. congruence. Qed.

Lemma sql_list_protocols_reads userId now d rows d' :
  sql_list_protocols userId now d = Ok (rows, d') -> d' = d.
Proof. unfold sql_list_protocols. congruence. Qed.

Lemma sql_select_active_run_reads userId now d rows d' :
  sql_select_active_run userId now d = Ok (rows, d') -> d' = d.
Proof. unfold sql_select_active_run. congruence. Qed.

(** A property that all statements of the service keep is kept by every
    method and both callers, hence along every sequence of calls. *)
Section KeptByAll.
Variable I : Database -> Prop.
Hypothesis upsert_keeps : forall id user_id name description steps tags is_active,
  stmt_keeps I (sql_upsert_protocol id user_id name description steps
                  (sum_durations steps) tags is_active).
Hypothesis insert_run_keeps : forall id protocol_id user_id,
  stmt_keeps I (sql_insert_run id protocol_id user_id).
Hypothesis update_last_run_keeps : forall protocol_id,
  stmt_keeps I (sql_update_last_run protocol_id).
Hypothesis update_run_step_keeps : forall id n,
  stmt_keeps I (sql_update_run_step id n).
Hypothesis complete_run_keeps : forall id notes,
  stmt_keeps I (sql_complete_run id notes).
Hypothesis cancel_run_keeps : forall id, stmt_keeps I (sql_cancel_run id).
Hypothesis soft_delete_keeps : forall id user_id,
  stmt_keeps I (sql_soft_delete id user_id).

Ltac keeps_step :=
  lazymatch goal with
  | |- keeps _ (ret _) => apply keeps_ret
  | |- keeps _ (throw _) => apply keeps_throw
  | |- keeps _ uuidv4 => apply keeps_uuidv4
  | |- keeps _ (first_row _) => apply keeps_first_row
  | |- keeps _ (log_and_rethrow _) => apply keeps_log_and_rethrow
  | |- keeps _ (try_catch _ _) => apply keeps_try_catch; [| intros ?]
  | |- keeps _ (bind _ _) => apply keeps_bind; [| intros ?]
  | |- keeps _ (pool_query _) => apply keeps_pool_query
  end.

Lemma createProtocol_keeps protocol : keeps I (createProtocol protocol).
Proof. unfold createProtocol. repeat keeps_step. apply upsert_keeps. Qed.

Lemma getProtocol_keeps userId name : keeps I (getProtocol userId name).
Proof.
  unfold getProtocol. repeat keeps_step.
  - apply stmt_keeps_read, sql_select_protocol_reads.
  - destruct a; keeps_step.
Qed.

Lemma listProtocols_keeps userId : keeps I (listProtocols userId).
Proof.
  unfold listProtocols. repeat keeps_step.
  apply stmt_keeps_read, sql_list_protocols_reads.
Qed.

Lemma startProtocolRun_keeps protocolId userId :
  keeps I (startProtocolRun protocolId userId).
Proof.
  unfold startProtocolRun. repeat keeps_step.
  - apply insert_run_keeps.
  - apply update_last_run_keeps.
Qed.

Lemma updateProtocolRunStep_keeps runId n : keeps I (updateProtocolRunStep runId n).
Proof. unfold updateProtocolRunStep. repeat keeps_step. apply update_run_step_keeps. Qed.

Lemma completeProtocolRun_keeps runId notes : keeps I (completeProtocolRun runId notes).
Proof. unfold completeProtocolRun. repeat keeps_step. apply complete_run_keeps. Qed.

Lemma cancelProtocolRun_keeps runId : keeps I (cancelProtocolRun runId).
Proof. unfold cancelProtocolRun. repeat keeps_step. apply cancel_run_keeps. Qed.

Lemma getActiveRun_keeps userId : keeps I (getActiveRun userId).
Proof.
  unfold getActiveRun. repeat keeps_step.
  - apply stmt_keeps_read, sql_select_active_run_reads.
  - destruct a; keeps_step.
Qed.

Lemma deleteProtocol_keeps id userId : keeps I (deleteProtocol id userId).
Proof. unfold deleteProtocol. repeat keeps_step. apply soft_delete_keeps. Qed.

Lemma handle_keeps request timer :
  keeps I (StartProtocolIntentHandler.handle request timer).
Proof.
  unfold StartProtocolIntentHandler.handle.
  destruct request as [[[|c n]|]|]; try apply keeps_ret.
  apply keeps_try_catch; [| intros ?; apply keeps_ret].
  apply keeps_bind; [apply getProtocol_keeps|]. intros [protocol|]; [|apply keeps_ret].
  apply keeps_bind; [apply getActiveRun_keeps|]. intros [run|]; [apply keeps_ret|].
  destruct (Protocol.id protocol); [|apply keeps_throw].
  apply keeps_bind; [apply startProtocolRun_keeps|]. intros runId.
  destruct (nth_error (Protocol.steps protocol) 0); [apply keeps_ret | apply keeps_throw].
Qed.

Lemma api_protocol_start_keeps userId protocolName :
  keeps I (api_protocol_start userId protocolName).
Proof.
  unfold api_protocol_start.
  apply keeps_try_catch; [| intros ?; apply keeps_ret].
  apply keeps_bind; [apply getProtocol_keeps|]. intros [protocol|]; [|apply keeps_ret].
  destruct (Protocol.id protocol); [|apply keeps_throw].
  apply keeps_bind; [apply startProtocolRun_keeps|]. intros runId. apply keeps_ret.
Qed.

Lemma perform_keeps c w : I (db w) -> I (db (perform c w)).
Proof.
  destruct c; simpl.
  - apply createProtocol_keeps.
  - apply getProtocol_keeps.
  - apply listProtocols_keeps.
  - apply startProtocolRun_keeps.
  - apply updateProtocolRunStep_keeps.
  - apply completeProtocolRun_keeps.
  - apply cancelProtocolRun_keeps.
  - apply getActiveRun_keeps.
  - apply deleteProtocol_keeps.
  - apply handle_keeps.
  - apply api_protocol_start_keeps.
Qed.

Lemma perform_all_keeps calls : forall w, I (db w) -> I (db (perform_all calls w)).
Proof.
  unfold perform_all. induction calls as [|c calls IH]; intros w H; simpl.
  - exact H.
  - apply IH. apply perform_keeps. exact H.
Qed.
End KeptByAll.

(* ------------------------------------------------------------------ *)
(** ** What each method computes *)

Ltac unfold_service :=
  unfold log_and_rethrow, try_catch, bind, pool_query, uuidv4, first_row,
    ret, throw, next, after; simpl.

Lemma createProtocol_eq protocol w :
  createProtocol protocol w =
    if rejects_at (oracle w) (S (tick w))
    then (Err query_rejected, mkWorld (db w) (S (S (tick w))) (oracle w))
    else
      match sql_upsert_protocol (uuidv4_at (oracle w) (tick w))
              (Protocol.userId protocol) (Protocol.name protocol)
              (or_null (Protocol.description protocol)) (Protocol.steps protocol)
              (sum_durations (Protocol.steps protocol))
              (tags_or_empty (Protocol.tags protocol))
              (not_false (Protocol.isActive protocol))
              (NOW_at (oracle w) (S (tick w))) (db w) with
      | Ok (rows, d) =>
          (match rows with r :: _ => Ok r | [] => Err TypeError end,
           mkWorld d (S (S (tick w))) (oracle w))
      | Err e => (Err e, mkWorld (db w) (S (S (tick w))) (oracle w))
      end.
Proof.
  unfold createProtocol. unfold_service.
  destruct (rejects_at (oracle w) (S (tick w))); [reflexivity|].
  destruct (sql_upsert_protocol _ _ _ _ _ _ _ _ _ _) as [[[|r rows] d] | e];
    reflexivity.
Qed.

Lemma in_update_where {A} (c : A -> bool) (set : A -> A) (t : list A) (x : A) :
  In x (update_where c set t) <->
  exists x0, In x0 t /\ x = (if c x0 then set x0 else x0).
Proof.
  unfold update_where. rewrite in_map_iff. split.
  - intros [x0 [E H]]. exists x0. auto.
  - intros [x0 [H E]]. exists x0. auto.
Qed.

Lemma existsb_filter_cons {A} (c : A -> bool) (t : list A) :
  existsb c t = true -> exists x rest, filter c t = x :: rest /\ c x = true.
Proof.
  induction t as [|y t IH]; simpl; [discriminate|].
  destruct (c y) eqn:E; simpl.
  - intros _. exists y, (filter c t). auto.
  - exact IH.
Qed.














(* ------------------------------------------------------------------ *)
(** ** Upsert over an existing row *)

Lemma same_key_true user_id name p :
  same_key user_id name p = true <->
  protocols.user_id p = user_id /\ protocols.name p = name.
Proof.
  unfold same_key. rewrite andb_true_iff, !String.eqb_eq. reflexivity.
Qed.

Lemma key_eqb_true a b : key_eqb a b = true <-> a = b.
Proof.
  unfold key_eqb. rewrite andb_true_iff, !String.eqb_eq.
  destruct a, b; simpl. split; [intros [-> ->]; reflexivity | intros E; inversion E; auto].
Qed.

(** In a column of distinct values a value names its row. *)
Lemma distinct_in_eq {A B} (f : A -> B) (eqb : B -> B -> bool)
    (eqb_true : forall x y, eqb x y = true <-> x = y) (t : list A) :
  distinct eqb (map f t) = true ->
  forall a b, In a t -> In b t -> f a = f b -> a = b.
Proof.
  induction t as [|x t IH]; simpl; [intros _ a b []|].
  rewrite andb_true_iff, negb_true_iff. intros [Hx Ht] a b Ha Hb E.
  assert (Hfresh : forall y, In y t -> f x <> f y).
  { intros y Hy Exy.
    assert (Hex : existsb (eqb (f x)) (map f t) = true).
    { apply existsb_exists. exists (f y). split; [apply in_map, Hy | apply eqb_true, Exy]. }
    congruence. }
  destruct Ha as [<- | Ha], Hb as [<- | Hb].
  - reflexivity.
  - exfalso. apply (Hfresh b Hb E).
  - exfalso. apply (Hfresh a Ha). symmetry. exact E.
  - apply IH; assumption.
Qed.

Lemma distinct_in_once {A B} (f : A -> B) (eqb : B -> B -> bool)
    (eqb_true : forall x y, eqb x y = true <-> x = y) (c : A -> bool) (t : list A) :
  distinct eqb (map f t) = true ->
  forall row, In row t -> c row = true ->
    (forall p, In p t -> c p = true -> f p = f row) ->
    filter c t = [row].
Proof.
  induction t as [|x t IH]; simpl; [intros _ row []|].
  rewrite andb_true_iff, negb_true_iff. intros [Hx Ht] row Hrow Hc Hkey.
  assert (Hfresh : forall y, In y t -> f x <> f y).
  { intros y Hy Exy.
    assert (Hex : existsb (eqb (f x)) (map f t) = true).
    { apply existsb_exists. exists (f y). split; [apply in_map, Hy | apply eqb_true, Exy]. }
    congruence. }
  destruct (c x) eqn:Ecx.
  - assert (f x = f row) by (apply Hkey; auto).
    destruct Hrow as [-> | Hrow]; [|exfalso; apply (Hfresh row Hrow); assumption].
    f_equal. clear IH.
    assert (Hnone : forall y, In y t -> c y = false).
    { intros y Hy. destruct (c y) eqn:Ecy; [|reflexivity].
      exfalso. apply (Hfresh y Hy). symmetry. apply Hkey; auto. }
    clear - Hnone. induction t as [|y t IH]; simpl; [reflexivity|].
    rewrite (Hnone y) by (left; reflexivity). apply IH. intros z Hz. apply Hnone. right. exact Hz.
  - destruct Hrow as [-> | Hrow]; [congruence|].
    apply IH; auto.
Qed.

Lemma in_order_by {A} (before : A -> A -> bool) (l : list A) (x : A) :
  In x (order_by before l) <-> In x l.
Proof.
  assert (Hins : forall y l, In x (insert_row before y l) <-> x = y \/ In x l).
  { intros y l0. induction l0 as [|z l0 IH]; simpl.
    - intuition.
    - destruct (before y z); simpl; [intuition | rewrite IH; intuition]. }
  induction l as [|y l IH]; simpl; [reflexivity|].
  rewrite Hins, IH. intuition.
Qed.

Lemma getProtocol_eq userId name w :
  getProtocol userId name w =
    if rejects_at (oracle w) (tick w) then (Err query_rejected, next w)
    else
      (Ok (match filter (fun p => String.eqb (protocols.user_id p) userId
                                  && String.eqb (LOWER (protocols.name p)) (LOWER name)
                                  && protocols.is_active p)
                   (tbl_protocols (db w)) with
           | [] => None
           | row :: _ => Some (protocol_of_row row)
           end), next w).
Proof.
  unfold getProtocol. unfold_service.
  destruct (rejects_at (oracle w) (tick w)); [reflexivity|].
  unfold next. destruct w as [d t o]; simpl.
  destruct (filter _ _); reflexivity.
Qed.

Lemma listProtocols_eq userId w :
  listProtocols userId w =
    if rejects_at (oracle w) (tick w) then (Err query_rejected, next w)
    else
      (Ok (map protocol_of_row
             (order_by most_used_first
                (filter (fun p => String.eqb (protocols.user_id p) userId
                                  && protocols.is_active p)
                   (tbl_protocols (db w))))), next w).
Proof.
  unfold listProtocols. unfold_service.
  destruct (rejects_at (oracle w) (tick w)); [reflexivity|].
  unfold next. destruct w as [d t o]; reflexivity.
Qed.

(** What [getProtocol] and [listProtocols] return are active rows. *)
Lemma getProtocol_returns_active userId name w q :
  fst (getProtocol userId name w) = Ok (Some q) ->
  exists p, In p (tbl_protocols (db w)) /\ protocols.is_active p = true
            /\ q = protocol_of_row p.
Proof.
  rewrite getProtocol_eq.
  destruct (rejects_at (oracle w) (tick w)); simpl; [discriminate|].
  destruct (filter _ _) as [|p rest] eqn:Ef; [discriminate|].
  intros E. inversion E; subst; clear E.
  assert (Hin : In p (p :: rest)) by (left; reflexivity).
  rewrite <- Ef in Hin. apply filter_In in Hin. destruct Hin as [Hin Hc].
  rewrite !andb_true_iff in Hc. exists p. intuition.
Qed.

Lemma listProtocols_returns_active userId w l q :
  fst (listProtocols userId w) = Ok l -> In q l ->
  exists p, In p (tbl_protocols (db w)) /\ protocols.is_active p = true
            /\ q = protocol_of_row p.
Proof.
  rewrite listProtocols_eq.
  destruct (rejects_at (oracle w) (tick w)); simpl; [discriminate|].
  intros E Hq. inversion E; subst; clear E.
  apply in_map_iff in Hq. destruct Hq as [p [<- Hp]].
  apply in_order_by, filter_In in Hp. destruct Hp as [Hin Hc].
  rewrite andb_true_iff in Hc. exists p. intuition.
Qed.

Lemma Forall2_map_in {A} (P : A -> A -> Prop) (g : A -> A) (t : list A) :
  (forall x, In x t -> P x (g x)) -> Forall2 P t (map g t).
Proof.
  induction t as [|x t IH]; intros H; simpl; constructor.
  - apply H. left. reflexivity.
  - apply IH. intros y Hy. apply H. right. exact Hy.
Qed.

Lemma do_update_set_revises protocol now p :
  revised_by protocol now p
    (do_update_set (or_null (Protocol.description protocol)) (Protocol.steps protocol)
       (sum_durations (Protocol.steps protocol))
       (tags_or_empty (Protocol.tags protocol)) now p).
Proof. unfold revised_by. simpl. repeat split. Qed.

Section UpsertOverExistingRow.
Variable protocol : Protocol.t.
Variable w : World.
Variable row : protocols.row.
Hypothesis pk : primary_key_ok (db w) = true.
Hypothesis uq : unique_user_name_ok (db w) = true.
Hypothesis row_in : In row (tbl_protocols (db w)).
Hypothesis row_user : protocols.user_id row = Protocol.userId protocol.
Hypothesis row_name : protocols.name row = Protocol.name protocol.

Let hit := same_key (Protocol.userId protocol) (Protocol.name protocol).

Lemma row_is_hit : hit row = true.
Proof. apply same_key_true. auto. Qed.

Lemma hit_is_row p : In p (tbl_protocols (db w)) -> hit p = true -> p = row.
Proof.
  intros Hp Hc. apply same_key_true in Hc. destruct Hc as [Hu Hn].
  apply (distinct_in_eq key_of key_eqb key_eqb_true _ uq); auto.
  unfold key_of. congruence.
Qed.

Lemma id_is_row p :
  In p (tbl_protocols (db w)) -> protocols.id p = protocols.id row -> p = row.
Proof.
  intros Hp E. apply (distinct_in_eq protocols.id N.eqb N.eqb_eq _ pk); auto.
Qed.

Lemma hit_filter : filter hit (tbl_protocols (db w)) = [row].
Proof.
  apply (distinct_in_once key_of key_eqb key_eqb_true hit _ uq row row_in row_is_hit).
  intros p Hp Hc. f_equal. apply hit_is_row; assumption.
Qed.

Lemma hit_exists : existsb hit (tbl_protocols (db w)) = true.
Proof. apply existsb_exists. exists row. split; [exact row_in | exact row_is_hit]. Qed.
End UpsertOverExistingRow.

(** The upsert over the row of the same owner and name. *)
Lemma createProtocol_revises protocol w row :
  unique_user_name_ok (db w) = true ->
  In row (tbl_protocols (db w)) ->
  protocols.user_id row = Protocol.userId protocol ->
  protocols.name row = Protocol.name protocol ->
  rejects_at (oracle w) (S (tick w)) = false ->
  is_int4 (sum_durations (Protocol.steps protocol)) = true ->
  createProtocol protocol w =
    (Ok (protocols.id row),
     mkWorld
       (mkDatabase
          (update_where
             (same_key (Protocol.userId protocol) (Protocol.name protocol))
             (do_update_set (or_null (Protocol.description protocol))
                (Protocol.steps protocol)
                (sum_durations (Protocol.steps protocol))
                (tags_or_empty (Protocol.tags protocol))
                (NOW_at (oracle w) (S (tick w))))
             (tbl_protocols (db w)))
          (tbl_protocol_runs (db w)))
       (S (S (tick w))) (oracle w)).
Proof.
  intros uq row_in row_user row_name Hq Hfit.
  rewrite createProtocol_eq, Hq. unfold sql_upsert_protocol. rewrite Hfit. simpl.
  rewrite (hit_exists protocol w row row_in row_user row_name).
  rewrite (hit_filter protocol w row uq row_in row_user row_name). reflexivity.
Qed.

(** C10. When [createProtocol] meets a row with the same owner and name, it
    returns that row's id and replaces in it only description, steps, total
    duration, tags and [updated_at]; [run_count], [last_run], [is_active] (and
    id, owner, name, [created_at]) stay, all other rows and all runs stay, and
    a row that was soft-deleted stays hidden from [getProtocol] and
    [listProtocols]. *)
Theorem upsert_replaces_only_definition_columns :
  forall (protocol : Protocol.t) (w : World) (row : protocols.row),
    primary_key_ok (db w) = true ->
    unique_user_name_ok (db w) = true ->
    In row (tbl_protocols (db w)) ->
    protocols.user_id row = Protocol.userId protocol ->
    protocols.name row = Protocol.name protocol ->
    rejects_at (oracle w) (S (tick w)) = false ->
    is_int4 (sum_durations (Protocol.steps protocol)) = true ->
    let w' := after (createProtocol protocol) w in
    fst (createProtocol protocol w) = Ok (protocols.id row)
    /\ tbl_protocol_runs (db w') = tbl_protocol_runs (db w)
    /\ Forall2
         (fun p p' =>
            if N.eqb (protocols.id p) (protocols.id row)
            then revised_by protocol (NOW_at (oracle w) (S (tick w))) p p'
            else p' = p)
         (tbl_protocols (db w)) (tbl_protocols (db w'))
    /\ (protocols.is_active row = false ->
        forall (userId name : string) (w2 : World),
          db w2 = db w' ->
          (forall q, fst (getProtocol userId name w2) = Ok (Some q) ->
                     Protocol.id q <> Some (protocols.id row))
          /\ (forall l q, fst (listProtocols userId w2) = Ok l -> In q l ->
                          Protocol.id q <> Some (protocols.id row))).
Proof.
  intros protocol w row pk uq row_in row_user row_name Hq Hint w'.
  pose proof (createProtocol_revises protocol w row uq row_in row_user row_name Hq Hint)
    as Hw.
  assert (Hrows : forall p', In p' (tbl_protocols (db w')) ->
            protocols.id p' = protocols.id row -> protocols.is_active p' = protocols.is_active row).
  { subst w'. unfold after. rewrite Hw. simpl. intros p' Hp' Eid.
    apply in_update_where in Hp'. destruct Hp' as [p0 [Hin ->]].
    assert (p0 = row).
    { apply (id_is_row w row pk row_in); auto.
      destruct (same_key _ _ p0); simpl in Eid; exact Eid. }
    subst p0. rewrite (row_is_hit protocol row row_user row_name). reflexivity. }
  split; [rewrite Hw; reflexivity|].
  split; [subst w'; unfold after; rewrite Hw; reflexivity|].
  split.
  - subst w'. unfold after. rewrite Hw. simpl. unfold update_where.
    apply Forall2_map_in. intros p Hp.
    destruct (N.eqb (protocols.id p) (protocols.id row)) eqn:Eid.
    + apply N.eqb_eq in Eid. rewrite (id_is_row w row pk row_in p Hp Eid).
      rewrite (row_is_hit protocol row row_user row_name).
      apply do_update_set_revises.
    + destruct (same_key _ _ p) eqn:Ec; [|reflexivity].
      rewrite (hit_is_row protocol w row uq row_in row_user row_name p Hp Ec) in Eid.
      rewrite N.eqb_refl in Eid. discriminate.
  - intros Hoff userId name w2 Hdb. split.
    + intros q Hget.
      destruct (getProtocol_returns_active _ _ _ Hget) as [p' [Hin [Hact ->]]].
      simpl. intros E. inversion E as [Eid].
      rewrite Hdb in Hin. rewrite (Hrows p' Hin Eid) in Hact. congruence.
    + intros l q Hlist Hq'.
      destruct (listProtocols_returns_active _ _ _ Hlist Hq') as [p' [Hin [Hact ->]]].
      simpl. intros E. inversion E as [Eid].
      rewrite Hdb in Hin. rewrite (Hrows p' Hin Eid) in Hact. congruence.
Qed.

(* ------------------------------------------------------------------ *)
(** ** The active run *)

Lemma getActiveRun_eq userId w :
  getActiveRun userId w =
    if rejects_at (oracle w) (tick w) then (Err query_rejected, next w)
    else
      (Ok (match order_by latest_first
                   (filter (fun x => active_of userId (fst x))
                      (join_runs_protocols (db w))) with
           | [] => None
           | row :: _ => Some (run_of_row row)
           end), next w).
Proof.
  unfold getActiveRun. unfold_service.
  destruct (rejects_at (oracle w) (tick w)); [reflexivity|].
  unfold next. destruct w as [d t o]; simpl.
  destruct (order_by _ _); reflexivity.
Qed.

Lemma in_join_runs_protocols d pr p :
  In (pr, p) (join_runs_protocols d) <->
  In pr (tbl_protocol_runs d) /\ In p (tbl_protocols d)
  /\ protocols.id p = protocol_runs.protocol_id pr.
Proof.
  unfold join_runs_protocols. rewrite in_flat_map. split.
  - intros [pr0 [Hpr Hin]]. apply in_map_iff in Hin.
    destruct Hin as [p0 [E Hp]]. inversion E; subst; clear E.
    apply filter_In in Hp. destruct Hp as [Hp Hid].
    apply N.eqb_eq in Hid. auto.
  - intros [Hpr [Hp Hid]]. exists pr. split; [exact Hpr|].
    apply in_map_iff. exists p. split; [reflexivity|].
    apply filter_In. split; [exact Hp | apply N.eqb_eq, Hid].
Qed.

(** The first row of [ORDER BY started_at DESC] started last. *)
Lemma order_by_latest_first_head l :
  match order_by latest_first l with
  | [] => l = []
  | h :: _ =>
      In h l /\
      forall y, In y l ->
        protocol_runs.started_at (fst y) <= protocol_runs.started_at (fst h)
  end.
Proof.
  induction l as [|x l IH]; simpl; [reflexivity|].
  destruct (order_by latest_first l) as [|h t]; simpl.
  - subst l. split; [left; reflexivity|]. intros y [<- | []]. lia.
  - destruct IH as [Hh Hmax]. unfold latest_first at 1.
    destruct (protocol_runs.started_at (fst h) <=? protocol_runs.started_at (fst x)) eqn:E.
    + apply Z.leb_le in E. split; [left; reflexivity|].
      intros y [<- | Hy]; [lia|]. specialize (Hmax y Hy). lia.
    + apply Z.leb_gt in E. split; [right; exact Hh|].
      intros y [<- | Hy]; [lia | apply Hmax, Hy].
Qed.

Lemma foreign_key_row d pr :
  foreign_key_ok d = true -> In pr (tbl_protocol_runs d) ->
  exists p, In p (tbl_protocols d) /\ protocols.id p = protocol_runs.protocol_id pr.
Proof.
  unfold foreign_key_ok. rewrite forallb_forall. intros H Hpr.
  specialize (H pr Hpr). apply existsb_exists in H.
  destruct H as [p [Hp Hid]]. apply N.eqb_eq in Hid. eauto.
Qed.

(** Under the foreign key, the rows the active-run query orders are not
    empty as soon as the owner has an [in_progress] run, and the first of
    them started last. *)
Lemma latest_active_row userId d r :
  foreign_key_ok d = true ->
  In r (tbl_protocol_runs d) ->
  active_of userId r = true ->
  exists r0 p rest,
    order_by latest_first
      (filter (fun x => active_of userId (fst x)) (join_runs_protocols d))
    = (r0, p) :: rest
    /\ In r0 (tbl_protocol_runs d)
    /\ active_of userId r0 = true
    /\ In p (tbl_protocols d)
    /\ protocols.id p = protocol_runs.protocol_id r0
    /\ forall r', In r' (tbl_protocol_runs d) ->
                  active_of userId r' = true ->
                  protocol_runs.started_at r' <= protocol_runs.started_at r0.
Proof.
  intros Hfk Hr Hact.
  pose proof (order_by_latest_first_head
                (filter (fun x => active_of userId (fst x))
                   (join_runs_protocols d))) as Hhead.
  destruct (order_by latest_first _) as [|[r0 p] t].
  - exfalso. destruct (foreign_key_row _ _ Hfk Hr) as [p [Hp Hid]].
    assert (Hin : In (r, p) (filter (fun x => active_of userId (fst x))
                               (join_runs_protocols d))).
    { apply filter_In. split; [apply in_join_runs_protocols; auto | exact Hact]. }
    rewrite Hhead in Hin. destruct Hin.
  - destruct Hhead as [Hin Hmax]. apply filter_In in Hin. destruct Hin as [Hj Ha].
    apply in_join_runs_protocols in Hj. destruct Hj as [Hr0 [Hp Hid]].
    exists r0, p, t. repeat split; auto.
    intros r' Hr' Ha'. destruct (foreign_key_row _ _ Hfk Hr') as [p' [Hp' Hid']].
    apply (Hmax (r', p')). apply filter_In.
    split; [apply in_join_runs_protocols; auto | exact Ha'].
Qed.



(* ------------------------------------------------------------------ *)
(** ** Starting a run *)

Lemma startProtocolRun_eq protocolId userId w :
  startProtocolRun protocolId userId w =
    let o := oracle w in
    let t := tick w in
    if rejects_at o (S t) then (Err query_rejected, mkWorld (db w) (S (S t)) o)
    else
      match sql_insert_run (uuidv4_at o t) protocolId userId (NOW_at o (S t)) (db w) with
      | Err e => (Err e, mkWorld (db w) (S (S t)) o)
      | Ok (rows, d1) =>
          if rejects_at o (S (S t))
          then (Err query_rejected, mkWorld d1 (S (S (S t))) o)
          else
            match sql_update_last_run protocolId (NOW_at o (S (S t))) d1 with
            | Err e => (Err e, mkWorld d1 (S (S (S t))) o)
            | Ok (_, d2) =>
                (match rows with r :: _ => Ok r | [] => Err TypeError end,
                 mkWorld d2 (S (S (S t))) o)
            end
      end.
Proof.
  unfold startProtocolRun. unfold_service.
  destruct (rejects_at (oracle w) (S (tick w))); [reflexivity|].
  destruct (sql_insert_run _ _ _ _ _) as [[rows d1] | e]; [|reflexivity].
  simpl. destruct (rejects_at (oracle w) (S (S (tick w)))); [reflexivity|].
  destruct (sql_update_last_run _ _ _) as [[rows2 d2] | e]; [|reflexivity].
  simpl. destruct rows; reflexivity.
Qed.

Lemma sql_update_last_run_runs protocol_id now d rows d' :
  sql_update_last_run protocol_id now d = Ok (rows, d') ->
  tbl_protocol_runs d' = tbl_protocol_runs d.
Proof.
  unfold sql_update_last_run. destruct (existsb _ _); [discriminate|].
  intros E. inversion E. reflexivity.
Qed.

(** A call of [startProtocolRun] adds at most one row to [protocol_runs], an
    [in_progress] run of the owner it is given, and changes no other row. *)
Lemma startProtocolRun_runs protocolId userId w :
  let runs := tbl_protocol_runs (db w) in
  let runs' := tbl_protocol_runs (db (after (startProtocolRun protocolId userId) w)) in
  runs' = runs \/
  exists id now,
    runs' = (runs ++ [protocol_runs.mk id protocolId userId now None in_progress 0 None])%list.
Proof.
  unfold after. rewrite startProtocolRun_eq. simpl.
  destruct (rejects_at (oracle w) (S (tick w))); [left; reflexivity|].
  destruct (sql_insert_run _ _ _ _ _) as [[rows d1] | e] eqn:E1; [|left; reflexivity].
  assert (H1 : exists id now, tbl_protocol_runs d1 =
             (tbl_protocol_runs (db w)
              ++ [protocol_runs.mk id protocolId userId now None in_progress 0 None])%list).
  { unfold sql_insert_run in E1.
    destruct (existsb _ _); [discriminate|]. destruct (negb _); [discriminate|].
    inversion E1; subst; clear E1. simpl. eauto. }
  right. destruct H1 as [id [now H1]]. exists id, now.
  destruct (rejects_at (oracle w) (S (S (tick w)))); [exact H1|].
  destruct (sql_update_last_run _ _ _) as [[rows2 d2] | e] eqn:E2; [|exact H1].
  simpl. rewrite (sql_update_last_run_runs _ _ _ E2). exact H1.
Qed.

Lemma getProtocol_reads userId name w :
  getProtocol userId name w = (fst (getProtocol userId name w), next w).
Proof.
  rewrite getProtocol_eq. destruct (rejects_at (oracle w) (tick w)); reflexivity.
Qed.

Lemma getActiveRun_reads userId w :
  getActiveRun userId w = (fst (getActiveRun userId w), next w).
Proof.
  rewrite getActiveRun_eq. destruct (rejects_at (oracle w) (tick w)); reflexivity.
Qed.

(** Under the foreign key, [getActiveRun] answers [null] only when the owner
    has no [in_progress] run. *)
Lemma getActiveRun_null userId w :
  foreign_key_ok (db w) = true ->
  fst (getActiveRun userId w) = Ok None ->
  active_runs userId (db w) = [].
Proof.
  intros Hfk Hnone. unfold active_runs.
  destruct (filter (active_of userId) (tbl_protocol_runs (db w))) as [|r rest] eqn:Ef;
    [reflexivity|]. exfalso.
  assert (Hin : In r (filter (active_of userId) (tbl_protocol_runs (db w))))
    by (rewrite Ef; left; reflexivity).
  apply filter_In in Hin. destruct Hin as [Hr Hact].
  destruct (rejects_at (oracle w) (tick w)) eqn:Hq.
  - rewrite getActiveRun_eq, Hq in Hnone. discriminate.
  - destruct (latest_active_row userId (db w) r Hfk Hr Hact)
      as [r0 [p [others [Hrows _]]]].
    rewrite getActiveRun_eq, Hq, Hrows in Hnone. discriminate.
Qed.

Lemma getActiveRun_some userId w run :
  fst (getActiveRun userId w) = Ok (Some run) ->
  active_runs userId (db w) <> [].
Proof.
  rewrite getActiveRun_eq.
  destruct (rejects_at (oracle w) (tick w)); simpl; [discriminate|].
  pose proof (order_by_latest_first_head
                (filter (fun x => active_of userId (fst x))
                   (join_runs_protocols (db w)))) as Hhead.
  destruct (order_by latest_first _) as [|[r0 p] t]; [discriminate|].
  intros _ Hnil. destruct Hhead as [Hin _].
  apply filter_In in Hin. destruct Hin as [Hj Ha].
  apply in_join_runs_protocols in Hj. destruct Hj as [Hr0 _].
  assert (Hin : In r0 (active_runs userId (db w))) by (apply filter_In; auto).
  rewrite Hnil in Hin. destruct Hin.
Qed.

(** [startProtocolRun] looks at no run: it succeeds whenever the protocol row
    exists, the drawn id is new, both queries are accepted and the counter
    fits its column. *)
Lemma startProtocolRun_unguarded protocolId userId w :
  let o := oracle w in
  let t := tick w in
  let d := db w in
  existsb (has_id protocolId) (tbl_protocols d) = true ->
  existsb (run_has_id (uuidv4_at o t)) (tbl_protocol_runs d) = false ->
  rejects_at o (S t) = false ->
  rejects_at o (S (S t)) = false ->
  existsb (fun p => has_id protocolId p && negb (is_int4 (protocols.run_count p + 1)))
    (tbl_protocols d) = false ->
  startProtocolRun protocolId userId w =
    (Ok (uuidv4_at o t),
     mkWorld
       (mkDatabase
          (update_where (has_id protocolId) (set_last_run (NOW_at o (S (S t))))
             (tbl_protocols d))
          (tbl_protocol_runs d
             ++ [protocol_runs.mk (uuidv4_at o t) protocolId userId (NOW_at o (S t))
                   None in_progress 0 None]))
       (S (S (S t))) o).
Proof.
  intros o t d Hp Hfresh Hq1 Hq2 Hfit.
  rewrite startProtocolRun_eq. fold o t d. simpl. rewrite Hq1.
  unfold sql_insert_run. fold d. rewrite Hfresh, Hp. simpl. rewrite Hq2.
  unfold sql_update_last_run. simpl. rewrite Hfit. reflexivity.
Qed.

Lemma active_of_new_run userId id protocolId u now :
  active_of userId (protocol_runs.mk id protocolId u now None in_progress 0 None)
  = String.eqb u userId.
Proof. unfold active_of. simpl. apply andb_true_r. Qed.

Lemma active_runs_app userId protocols runs r :
  active_runs userId (mkDatabase protocols (runs ++ [r])) =
  (filter (active_of userId) runs ++ (if active_of userId r then [r] else []))%list.
Proof. unfold active_runs. simpl. rewrite filter_app. reflexivity. Qed.

(** What the start handler does to the tables: nothing, or, when
    [getActiveRun] answered [null], what one [startProtocolRun] for kelly
    does. *)
Lemma handle_db request timer w :
  let w' := after (StartProtocolIntentHandler.handle request timer) w in
  db w' = db w \/
  (fst (getActiveRun "kelly" (next w)) = Ok None /\
   exists id, db w' = db (after (startProtocolRun id "kelly") (next (next w)))).
Proof.
  unfold after, StartProtocolIntentHandler.handle.
  destruct request as [[[|c n]|]|]; simpl; try (left; reflexivity).
  unfold try_catch, bind. rewrite getProtocol_reads.
  destruct (fst (getProtocol "kelly" (String c n) w)) as [[protocol|]|e];
    try (left; reflexivity).
  rewrite getActiveRun_reads.
  destruct (fst (getActiveRun "kelly" (next w))) as [[run|]|e] eqn:Eact;
    try (left; reflexivity).
  destruct (Protocol.id protocol) as [id|]; [|left; reflexivity].
  right. split; [reflexivity|]. exists id.
  destruct (startProtocolRun id "kelly" (next (next w))) as [[runId|e] w3];
    [|reflexivity].
  simpl. destruct (Protocol.steps protocol); reflexivity.
Qed.

Lemma handle_never_throws request timer w :
  exists response, fst (StartProtocolIntentHandler.handle request timer w) = Ok response.
Proof.
  unfold StartProtocolIntentHandler.handle.
  destruct request as [[[|c n]|]|]; simpl; try (eexists; reflexivity).
  unfold try_catch.
  destruct (bind _ _ w) as [[response|e] w']; eexists; reflexivity.
Qed.

(** C1, as the code has it.  [startProtocolRun] makes no check of the runs:
    with the protocol row present, a new id and both queries accepted it adds
    an [in_progress] run to those the owner already has.  The check is the
    start handler's: it never throws, it leaves the tables alone when kelly
    has an active run, and calls of the handler, one after another, keep at
    most one active run per owner. *)
Theorem one_active_run_is_kept_by_the_start_handler :
  (forall (protocolId : Uuid) (userId : string) (w : World),
      existsb (has_id protocolId) (tbl_protocols (db w)) = true ->
      existsb (run_has_id (uuidv4_at (oracle w) (tick w))) (tbl_protocol_runs (db w)) = false ->
      rejects_at (oracle w) (S (tick w)) = false ->
      rejects_at (oracle w) (S (S (tick w))) = false ->
      existsb (fun p => has_id protocolId p && negb (is_int4 (protocols.run_count p + 1)))
        (tbl_protocols (db w)) = false ->
      fst (startProtocolRun protocolId userId w) = Ok (uuidv4_at (oracle w) (tick w))
      /\ active_runs userId (db (after (startProtocolRun protocolId userId) w)) =
         (active_runs userId (db w)
          ++ [protocol_runs.mk (uuidv4_at (oracle w) (tick w)) protocolId userId
                (NOW_at (oracle w) (S (tick w))) None in_progress 0 None])%list)
  /\ (forall (request : Request) (timer : TimerSurface) (w : World),
         foreign_key_ok (db w) = true ->
         let w' := after (StartProtocolIntentHandler.handle request timer) w in
         (exists response,
             fst (StartProtocolIntentHandler.handle request timer w) = Ok response)
         /\ (active_runs "kelly" (db w) <> [] -> db w' = db w)
         /\ (forall userId,
                at_most_one_active userId (db w) -> at_most_one_active userId (db w'))).
Proof.
  split.
  - intros protocolId userId w Hp Hfresh Hq1 Hq2 Hfit.
    unfold after.
    rewrite (startProtocolRun_unguarded protocolId userId w Hp Hfresh Hq1 Hq2 Hfit).
    split; [reflexivity|]. simpl. rewrite active_runs_app.
    rewrite active_of_new_run, String.eqb_refl. reflexivity.
  - intros request timer w Hfk w'.
    split; [apply handle_never_throws|].
    destruct (handle_db request timer w) as [Hsame | [Hnone [id Hstart]]];
      fold w' in Hsame || fold w' in Hstart.
    + split; [intros _; exact Hsame|]. intros userId H. rewrite Hsame. exact H.
    + assert (Hempty : active_runs "kelly" (db w) = [])
        by (apply (getActiveRun_null "kelly" (next w) Hfk Hnone)).
      split; [intros Hne; contradiction|].
      intros userId H. rewrite Hstart. unfold at_most_one_active in *.
      destruct (startProtocolRun_runs id "kelly" (next (next w))) as [E | [rid [now E]]];
        simpl in E; unfold active_runs in *; rewrite E; [exact H|].
      rewrite filter_app. cbn [filter]. rewrite active_of_new_run.
      destruct (String.eqb "kelly" userId) eqn:Eu.
      * apply String.eqb_eq in Eu. subst userId. rewrite Hempty. simpl. lia.
      * rewrite app_nil_r. exact H.
Qed.

(** C1, as the spec has it, fails: with a run of kelly in progress,
    [startProtocolRun] returns a run id and kelly has two runs in progress. *)
Lemma second_start_succeeds :
  List.length (active_runs "kelly" (db one_run_world)) = 1%nat
  /\ fst (startProtocolRun 1%N "kelly" one_run_world) = Ok 6%N
  /\ List.length
       (active_runs "kelly" (db (after (startProtocolRun 1%N "kelly") one_run_world)))
     = 2%nat.
Proof. repeat split. Qed.

Lemma one_active_run_is_kept_by_the_start_handler_witness :
  active_runs "kelly" (db (after (startProtocolRun 1%N "kelly") kelly_world)) =
    [protocol_runs.mk 3%N 1%N "kelly" 3 None in_progress 0 None]
  /\ at_most_one_active "kelly"
       (db (after (StartProtocolIntentHandler.handle
                     (IntentRequest (Some "red light")) timer_created)
              one_run_world)).
Proof.
  split.
  - apply (proj1 one_active_run_is_kept_by_the_start_handler 1%N "kelly" kelly_world);
      reflexivity.
  - apply (proj2 one_active_run_is_kept_by_the_start_handler
             (IntentRequest (Some "red light")) timer_created one_run_world).
    + reflexivity.
    + unfold at_most_one_active. simpl. lia.
Defined.

Lemma upsert_replaces_only_definition_columns_witness :
  protocols.is_active (protocols.mk 1%N "kelly" "red light"
                         (Some "Red light therapy protocol") red_light_steps 14
                         ["health"; "therapy"; "daily"] false None 0 1 2) = false
  /\ fst (createProtocol red_light deleted_world) = Ok 1%N
  /\ fst (getProtocol "kelly" "red light"
            (after (createProtocol red_light) deleted_world)) = Ok None.
Proof.
  destruct (upsert_replaces_only_definition_columns red_light deleted_world
              (protocols.mk 1%N "kelly" "red light"
                 (Some "Red light therapy protocol") red_light_steps 14
                 ["health"; "therapy"; "daily"] false None 0 1 2)
              eq_refl eq_refl (or_introl eq_refl) eq_refl eq_refl eq_refl eq_refl)
    as [Hid _].
  split; [reflexivity|]. split; [exact Hid | reflexivity].
Defined.

(* ------------------------------------------------------------------ *)
(** ** The updates of a run *)

Lemma rowCount_positive {A B} (f : A -> B) (c : A -> bool) (t : list A) :
  (0 <? rowCount (map f (filter c t))) = existsb c t.
Proof.
  unfold rowCount. induction t as [|x t IH]; simpl; [reflexivity|].
  destruct (c x); simpl; [|exact IH].
  apply Z.ltb_lt. lia.
Qed.

Lemma update_where_none {A} (c : A -> bool) (set : A -> A) (t : list A) :
  existsb c t = false -> update_where c set t = t.
Proof.
  unfold update_where. induction t as [|x t IH]; simpl; [reflexivity|].
  rewrite orb_false_iff. intros [Hx Ht]. rewrite Hx, IH; auto.
Qed.

Lemma update_where_by_id {A} (id_of : A -> Uuid) (id : Uuid) (set : A -> A)
    (change : A -> A -> Prop) (t : list A) :
  (forall r, change r (set r)) ->
  updated_by_id id_of id change t (update_where (fun r => N.eqb (id_of r) id) set t).
Proof.
  intros H. unfold updated_by_id, update_where. apply Forall2_map_in.
  intros r _. destruct (N.eqb (id_of r) id); [apply H | reflexivity].
Qed.

Lemma same_tables (d : Database) :
  mkDatabase (tbl_protocols d) (tbl_protocol_runs d) = d.
Proof. destruct d; reflexivity. Qed.

Lemma updateProtocolRunStep_eq runId stepNumber w :
  updateProtocolRunStep runId stepNumber w =
    if rejects_at (oracle w) (tick w) then (Err query_rejected, next w)
    else if negb (is_int4 stepNumber) then (Err numeric_value_out_of_range, next w)
    else
      (Ok (existsb (run_has_id runId) (tbl_protocol_runs (db w))),
       mkWorld
         (mkDatabase (tbl_protocols (db w))
            (update_where (run_has_id runId) (set_current_step stepNumber)
               (tbl_protocol_runs (db w))))
         (S (tick w)) (oracle w)).
Proof.
  unfold updateProtocolRunStep. unfold_service.
  destruct (rejects_at (oracle w) (tick w)); [reflexivity|].
  unfold sql_update_run_step. destruct (negb (is_int4 stepNumber)); [reflexivity|].
  simpl. rewrite rowCount_positive. reflexivity.
Qed.

Lemma completeProtocolRun_eq runId notes w :
  completeProtocolRun runId notes w =
    if rejects_at (oracle w) (tick w) then (Err query_rejected, next w)
    else
      (Ok (existsb (run_has_id runId) (tbl_protocol_runs (db w))),
       mkWorld
         (mkDatabase (tbl_protocols (db w))
            (update_where (run_has_id runId)
               (set_completed (NOW_at (oracle w) (tick w)) (or_null notes))
               (tbl_protocol_runs (db w))))
         (S (tick w)) (oracle w)).
Proof.
  unfold completeProtocolRun. unfold_service.
  destruct (rejects_at (oracle w) (tick w)); [reflexivity|].
  simpl. rewrite rowCount_positive. reflexivity.
Qed.

Lemma cancelProtocolRun_eq runId w :
  cancelProtocolRun runId w =
    if rejects_at (oracle w) (tick w) then (Err query_rejected, next w)
    else
      (Ok (existsb (run_has_id runId) (tbl_protocol_runs (db w))),
       mkWorld
         (mkDatabase (tbl_protocols (db w))
            (update_where (run_has_id runId)
               (set_cancelled (NOW_at (oracle w) (tick w)))
               (tbl_protocol_runs (db w))))
         (S (tick w)) (oracle w)).
Proof.
  unfold cancelProtocolRun. unfold_service.
  destruct (rejects_at (oracle w) (tick w)); [reflexivity|].
  simpl. rewrite rowCount_positive. reflexivity.
Qed.

(** C3, as the code has it.  [updateProtocolRunStep] returns [false], the
    tables unchanged, exactly when no run has the id; a run that has it gets
    the requested number as its [current_step], whatever its status and
    whatever its step was, and nothing else changes. *)
Theorem updateProtocolRunStep_sets_any_step :
  forall (runId : Uuid) (stepNumber : Z) (w : World),
    rejects_at (oracle w) (tick w) = false ->
    is_int4 stepNumber = true ->
    let w' := after (updateProtocolRunStep runId stepNumber) w in
    fst (updateProtocolRunStep runId stepNumber w)
      = Ok (existsb (run_has_id runId) (tbl_protocol_runs (db w)))
    /\ tbl_protocols (db w') = tbl_protocols (db w)
    /\ updated_by_id protocol_runs.id runId (stepped stepNumber)
         (tbl_protocol_runs (db w)) (tbl_protocol_runs (db w'))
    /\ (existsb (run_has_id runId) (tbl_protocol_runs (db w)) = false -> db w' = db w).
Proof.
  intros runId stepNumber w Hq Hfit w'. subst w'. unfold after.
  rewrite updateProtocolRunStep_eq, Hq, Hfit. simpl.
  split; [reflexivity|]. split; [reflexivity|]. split.
  - apply (update_where_by_id protocol_runs.id runId (set_current_step stepNumber)).
    intros r. reflexivity.
  - intros Hnone. rewrite update_where_none by exact Hnone. apply same_tables.
Qed.

(** C3, as the spec has it, fails: a run at step 0 of a protocol of four
    steps is moved to step 7, and a completed run is moved back to step -2;
    both calls return [true]. *)
Lemma step_update_skips_and_ignores_status :
  (tbl_protocol_runs (db one_run_world)
     = [protocol_runs.mk 3%N 1%N "kelly" 3 None in_progress 0 None]
   /\ List.length red_light_steps = 4%nat
   /\ fst (updateProtocolRunStep 3%N 7 one_run_world) = Ok true
   /\ map protocol_runs.current_step
        (tbl_protocol_runs (db (after (updateProtocolRunStep 3%N 7) one_run_world)))
      = [7])
  /\ (map protocol_runs.status (tbl_protocol_runs (db completed_world)) = [completed]
      /\ fst (updateProtocolRunStep 3%N (-2) completed_world) = Ok true
      /\ map protocol_runs.current_step
           (tbl_protocol_runs (db (after (updateProtocolRunStep 3%N (-2)) completed_world)))
         = [-2]).
Proof. repeat split. Qed.

Lemma updateProtocolRunStep_sets_any_step_witness :
  fst (updateProtocolRunStep 3%N 1 one_run_world) = Ok true
  /\ fst (updateProtocolRunStep 4%N 1 one_run_world) = Ok false.
Proof.
  split.
  - apply (updateProtocolRunStep_sets_any_step 3%N 1 one_run_world); reflexivity.
  - apply (updateProtocolRunStep_sets_any_step 4%N 1 one_run_world); reflexivity.
Defined.

(** C4, as the code has it.  [completeProtocolRun] and [cancelProtocolRun]
    return [false], the tables unchanged, exactly when no run has the id; a
    run that has it, terminal or not, gets the new status and the current
    time as [completed_at]; completing replaces its notes by the notes given
    (or NULL), cancelling keeps them. *)
Theorem terminal_transitions_apply_to_any_run :
  forall (runId : Uuid) (notes : option string) (w : World),
    rejects_at (oracle w) (tick w) = false ->
    let now := NOW_at (oracle w) (tick w) in
    let found := existsb (run_has_id runId) (tbl_protocol_runs (db w)) in
    let wc := after (completeProtocolRun runId notes) w in
    let wx := after (cancelProtocolRun runId) w in
    (fst (completeProtocolRun runId notes w) = Ok found
     /\ tbl_protocols (db wc) = tbl_protocols (db w)
     /\ updated_by_id protocol_runs.id runId
          (fun r r' => ended completed now (or_null notes) r r')
          (tbl_protocol_runs (db w)) (tbl_protocol_runs (db wc))
     /\ (found = false -> db wc = db w))
    /\ (fst (cancelProtocolRun runId w) = Ok found
        /\ tbl_protocols (db wx) = tbl_protocols (db w)
        /\ updated_by_id protocol_runs.id runId
             (fun r r' => ended cancelled now (protocol_runs.notes r) r r')
             (tbl_protocol_runs (db w)) (tbl_protocol_runs (db wx))
        /\ (found = false -> db wx = db w)).
Proof.
  intros runId notes w Hq now found wc wx. subst wc wx. unfold after.
  rewrite completeProtocolRun_eq, cancelProtocolRun_eq, Hq. simpl.
  split; (split; [reflexivity|]; split; [reflexivity|]; split).
  - apply (update_where_by_id protocol_runs.id runId
             (set_completed (NOW_at (oracle w) (tick w)) (or_null notes))).
    intros r. reflexivity.
  - intros Hnone. rewrite update_where_none by exact Hnone. apply same_tables.
  - apply (update_where_by_id protocol_runs.id runId
             (set_cancelled (NOW_at (oracle w) (tick w)))).
    intros r. reflexivity.
  - intros Hnone. rewrite update_where_none by exact Hnone. apply same_tables.
Qed.

(** C4, as the spec has it, fails: on a run completed at time 5 with the note
    "done", cancelling returns [true], makes it cancelled and stamps
    [completed_at] again; completing it again returns [true], stamps it again
    and erases the note. *)
Lemma terminal_run_is_rewritten :
  tbl_protocol_runs (db completed_world)
    = [protocol_runs.mk 3%N 1%N "kelly" 3 (Some 5) completed 0 (Some "done")]
  /\ fst (cancelProtocolRun 3%N completed_world) = Ok true
  /\ tbl_protocol_runs (db (after (cancelProtocolRun 3%N) completed_world))
     = [protocol_runs.mk 3%N 1%N "kelly" 3 (Some 6) cancelled 0 (Some "done")]
  /\ fst (completeProtocolRun 3%N None completed_world) = Ok true
  /\ tbl_protocol_runs (db (after (completeProtocolRun 3%N None) completed_world))
     = [protocol_runs.mk 3%N 1%N "kelly" 3 (Some 6) completed 0 None].
Proof. repeat split. Qed.

Lemma terminal_transitions_apply_to_any_run_witness :
  fst (completeProtocolRun 3%N (Some "done") one_run_world) = Ok true
  /\ fst (cancelProtocolRun 9%N completed_world) = Ok false.
Proof.
  split.
  - apply (terminal_transitions_apply_to_any_run 3%N (Some "done") one_run_world).
    reflexivity.
  - apply (terminal_transitions_apply_to_any_run 9%N None completed_world).
    reflexivity.
Defined.

(* ------------------------------------------------------------------ *)
(** ** Creating a protocol *)





(** C6, as the code has it.  [createProtocol] compares names byte for byte:
    a row of the owner with exactly the given name is revised and its id
    returned, no row added; when the owner has no row with exactly that name,
    a new row with the drawn id is added, whatever the letter case of the
    names the owner has. *)
Theorem createProtocol_matches_names_exactly :
  forall (protocol : Protocol.t) (w : World),
    rejects_at (oracle w) (S (tick w)) = false ->
    is_int4 (sum_durations (Protocol.steps protocol)) = true ->
    let id := uuidv4_at (oracle w) (tick w) in
    let now := NOW_at (oracle w) (S (tick w)) in
    (forall row,
        unique_user_name_ok (db w) = true ->
        In row (tbl_protocols (db w)) ->
        protocols.user_id row = Protocol.userId protocol ->
        protocols.name row = Protocol.name protocol ->
        fst (createProtocol protocol w) = Ok (protocols.id row)
        /\ map protocols.id (tbl_protocols (db (after (createProtocol protocol) w)))
           = map protocols.id (tbl_protocols (db w)))
    /\ (existsb (same_key (Protocol.userId protocol) (Protocol.name protocol))
          (tbl_protocols (db w)) = false ->
        existsb (has_id id) (tbl_protocols (db w)) = false ->
        fst (createProtocol protocol w) = Ok id
        /\ tbl_protocols (db (after (createProtocol protocol) w))
           = (tbl_protocols (db w)
              ++ [protocols.mk id (Protocol.userId protocol) (Protocol.name protocol)
                    (or_null (Protocol.description protocol))
                    (Protocol.steps protocol)
                    (sum_durations (Protocol.steps protocol))
                    (tags_or_empty (Protocol.tags protocol))
                    (not_false (Protocol.isActive protocol))
                    None 0 now now])%list).
Proof.
  intros protocol w Hq Hfit id now. unfold after. split.
  - intros row uq row_in row_user row_name.
    rewrite (createProtocol_revises protocol w row uq row_in row_user row_name Hq Hfit).
    simpl. split; [reflexivity|].
    unfold update_where. rewrite map_map. apply map_ext.
    intros p. destruct (same_key _ _ p); reflexivity.
  - intros Hnew Hfresh.
    rewrite createProtocol_eq, Hq. unfold sql_upsert_protocol. rewrite Hfit. simpl.
    rewrite Hnew. fold id. rewrite Hfresh. split; reflexivity.
Qed.

(** C6, as the spec has it, fails: kelly has "red light"; creating
    "Red Light" returns a new id and kelly has two active definitions whose
    names are equal up to letter case. *)
Lemma name_in_other_case_makes_second_definition :
  map protocols.name (tbl_protocols (db kelly_world)) = ["red light"]
  /\ LOWER "Red Light" = LOWER "red light"
  /\ fst (createProtocol Red_Light kelly_world) = Ok 3%N
  /\ map (fun p => (protocols.id p, protocols.name p, protocols.is_active p,
                    protocols.steps p))
       (tbl_protocols (db (after (createProtocol Red_Light) kelly_world)))
     = [(1%N, "red light", true, red_light_steps);
        (3%N, "Red Light", true, face_steps)].
Proof. repeat split. Qed.

Lemma createProtocol_matches_names_exactly_witness :
  fst (createProtocol red_light_revised kelly_world) = Ok 1%N
  /\ fst (createProtocol Red_Light kelly_world) = Ok 3%N.
Proof.
  split.
  - apply (proj1 (createProtocol_matches_names_exactly red_light_revised kelly_world
                    eq_refl eq_refl)
             (protocols.mk 1%N "kelly" "red light" (Some "Red light therapy protocol")
                red_light_steps 14 ["health"; "therapy"; "daily"] true None 0 1 1));
      try reflexivity.
    left. reflexivity.
  - apply (proj2 (createProtocol_matches_names_exactly Red_Light kelly_world
                    eq_refl eq_refl)); reflexivity.
Defined.

(* ------------------------------------------------------------------ *)
(** ** The bookkeeping of a start *)

(** C7, as the code has it.  A call of [startProtocolRun] that returns has
    added the run and has, in the row of the protocol, raised [run_count] by
    one and set [last_run] (and [updated_at]) to the time of the update.  The
    update is awaited in the same [try] as the insert: when it fails after
    the insert went through, the call fails and the run stays inserted. *)
Theorem run_bookkeeping_is_part_of_the_call :
  forall (protocolId : Uuid) (userId : string) (w : World),
    let o := oracle w in
    let t := tick w in
    let new_run :=
      protocol_runs.mk (uuidv4_at o t) protocolId userId (NOW_at o (S t))
        None in_progress 0 None in
    (forall runId w',
        startProtocolRun protocolId userId w = (Ok runId, w') ->
        runId = uuidv4_at o t
        /\ existsb (has_id protocolId) (tbl_protocols (db w)) = true
        /\ updated_by_id protocols.id protocolId (run_counted (NOW_at o (S (S t))))
             (tbl_protocols (db w)) (tbl_protocols (db w'))
        /\ tbl_protocol_runs (db w') = (tbl_protocol_runs (db w) ++ [new_run])%list)
    /\ (forall rows d1,
           rejects_at o (S t) = false ->
           sql_insert_run (uuidv4_at o t) protocolId userId (NOW_at o (S t)) (db w)
             = Ok (rows, d1) ->
           rejects_at o (S (S t)) = true
           \/ (exists e, sql_update_last_run protocolId (NOW_at o (S (S t))) d1 = Err e) ->
           (exists e, fst (startProtocolRun protocolId userId w) = Err e)
           /\ db (after (startProtocolRun protocolId userId) w) = d1
           /\ d1 = mkDatabase (tbl_protocols (db w))
                     (tbl_protocol_runs (db w) ++ [new_run])).
Proof.
  intros protocolId userId w o t new_run. split.
  - intros runId w'. rewrite startProtocolRun_eq. fold o t. simpl.
    destruct (rejects_at o (S t)); [discriminate|].
    unfold sql_insert_run.
    destruct (existsb (run_has_id _) _); [discriminate|].
    destruct (existsb (has_id protocolId) (tbl_protocols (db w))) eqn:Hp;
      simpl; [|discriminate].
    destruct (rejects_at o (S (S t))); [discriminate|].
    unfold sql_update_last_run. simpl.
    destruct (existsb (fun p => has_id protocolId p && _) _); simpl; [discriminate|].
    intros E. inversion E; subst; clear E. simpl.
    repeat split.
    apply (update_where_by_id protocols.id protocolId
             (set_last_run (NOW_at o (S (S t))))).
    intros r. reflexivity.
  - intros rows d1 Hq1 Hins Hfail. unfold after.
    rewrite startProtocolRun_eq. fold o t. simpl. rewrite Hq1, Hins.
    assert (Hd1 : d1 = mkDatabase (tbl_protocols (db w))
                         (tbl_protocol_runs (db w) ++ [new_run])).
    { unfold sql_insert_run in Hins.
      destruct (existsb _ _); [discriminate|]. destruct (negb _); [discriminate|].
      inversion Hins. reflexivity. }
    destruct (rejects_at o (S (S t))) eqn:Hq2.
    + split; [eexists; reflexivity|]. split; [reflexivity | exact Hd1].
    + destruct Hfail as [Hfail | [e He]]; [discriminate|].
      rewrite He. split; [eexists; reflexivity|]. split; [reflexivity | exact Hd1].
Qed.

(** C7, as the spec has it, fails: when the update of the protocol is
    rejected, or when [run_count + 1] does not fit the column, the call fails
    although the run is inserted. *)
Lemma failed_bookkeeping_fails_the_call :
  (fst (startProtocolRun 1%N "kelly" flaky_world) = Err query_rejected
   /\ tbl_protocol_runs (db (after (startProtocolRun 1%N "kelly") flaky_world))
      = [protocol_runs.mk 3%N 1%N "kelly" 3 None in_progress 0 None]
   /\ map protocols.run_count
        (tbl_protocols (db (after (startProtocolRun 1%N "kelly") flaky_world))) = [0])
  /\ (fst (startProtocolRun 1%N "kelly" worn_world) = Err numeric_value_out_of_range
      /\ tbl_protocol_runs (db (after (startProtocolRun 1%N "kelly") worn_world))
         = [protocol_runs.mk 3%N 1%N "kelly" 3 None in_progress 0 None]).
Proof. repeat split. Qed.

Lemma run_bookkeeping_is_part_of_the_call_witness :
  tbl_protocol_runs (db one_run_world)
    = [protocol_runs.mk 3%N 1%N "kelly" 3 None in_progress 0 None]
  /\ db (after (startProtocolRun 1%N "kelly") flaky_world)
     = mkDatabase (tbl_protocols (db flaky_world))
         [protocol_runs.mk 3%N 1%N "kelly" 3 None in_progress 0 None].
Proof.
  split.
  - pose proof (run_bookkeeping_is_part_of_the_call 1%N "kelly" kelly_world) as H.
    cbv zeta in H. destruct H as [H _].
    destruct (H 3%N one_run_world eq_refl) as [_ [_ [_ Hruns]]].
    exact Hruns.
  - pose proof (run_bookkeeping_is_part_of_the_call 1%N "kelly" flaky_world) as H.
    cbv zeta in H. destruct H as [_ H].
    apply (H [3%N]
             (mkDatabase (tbl_protocols (db flaky_world))
                [protocol_runs.mk 3%N 1%N "kelly" 3 None in_progress 0 None])).
    + reflexivity.
    + reflexivity.
    + left. reflexivity.
Defined.

(* ------------------------------------------------------------------ *)
(** ** The steps a run shows *)

Lemma filter_map_by_id (g : protocols.row -> protocols.row) (i : Uuid)
    (t : list protocols.row) :
  (forall p, protocols.id (g p) = protocols.id p) ->
  filter (has_id i) (map g t) = map g (filter (has_id i) t).
Proof.
  intros Hg. induction t as [|p t IH]; simpl; [reflexivity|].
  unfold has_id at 1. rewrite Hg. fold (has_id i p).
  destruct (has_id i p); simpl; rewrite IH; reflexivity.
Qed.

(** Rewriting rows of [protocols] without touching their ids rewrites the
    right half of the joined rows. *)
Lemma join_after_rewrite (g : protocols.row -> protocols.row) (d : Database) :
  (forall p, protocols.id (g p) = protocols.id p) ->
  join_runs_protocols (mkDatabase (map g (tbl_protocols d)) (tbl_protocol_runs d))
  = map (fun x => (fst x, g (snd x))) (join_runs_protocols d).
Proof.
  intros Hg. unfold join_runs_protocols. simpl.
  induction (tbl_protocol_runs d) as [|r runs IH]; simpl; [reflexivity|].
  rewrite map_app, IH, (filter_map_by_id g _ _ Hg), !map_map. reflexivity.
Qed.

Lemma filter_on_fst {A B} (c : A -> bool) (g : B -> B) (l : list (A * B)) :
  filter (fun x => c (fst x)) (map (fun x => (fst x, g (snd x))) l)
  = map (fun x => (fst x, g (snd x))) (filter (fun x => c (fst x)) l).
Proof.
  induction l as [|x l IH]; simpl; [reflexivity|].
  destruct (c (fst x)); simpl; rewrite IH; reflexivity.
Qed.

Lemma order_by_map {A} (before : A -> A -> bool) (f : A -> A) (l : list A) :
  (forall a b, before (f a) (f b) = before a b) ->
  order_by before (map f l) = map f (order_by before l).
Proof.
  intros Hf.
  assert (Hins : forall x l0,
             insert_row before (f x) (map f l0) = map f (insert_row before x l0)).
  { intros x l0. induction l0 as [|y l0 IH]; simpl; [reflexivity|].
    rewrite Hf. destruct (before x y); simpl; [reflexivity | rewrite IH; reflexivity]. }
  induction l as [|x l IH]; simpl; [reflexivity|].
  rewrite IH. apply Hins.
Qed.

(** The run [getActiveRun] returns carries the name and the steps the row of
    its protocol has at the time of the call. *)
Lemma getActiveRun_joins userId w run :
  fst (getActiveRun userId w) = Ok (Some run) ->
  exists r0 p,
    order_by latest_first
      (filter (fun x => active_of userId (fst x)) (join_runs_protocols (db w)))
      <> []
    /\ hd_error (order_by latest_first
                   (filter (fun x => active_of userId (fst x))
                      (join_runs_protocols (db w)))) = Some (r0, p)
    /\ run = run_of_row (r0, p)
    /\ In p (tbl_protocols (db w))
    /\ protocols.id p = ProtocolRun.protocolId run.
Proof.
  rewrite getActiveRun_eq.
  destruct (rejects_at (oracle w) (tick w)); simpl; [discriminate|].
  pose proof (order_by_latest_first_head
                (filter (fun x => active_of userId (fst x))
                   (join_runs_protocols (db w)))) as Hhead.
  destruct (order_by latest_first _) as [|[r0 p] t]; [discriminate|].
  intros E. inversion E; subst; clear E.
  destruct Hhead as [Hin _]. apply filter_In in Hin. destruct Hin as [Hj _].
  apply in_join_runs_protocols in Hj. destruct Hj as [_ [Hp Hid]].
  exists r0, p. repeat split; auto. discriminate.
Qed.

(** C2, as the code has it.  A run keeps the id of its protocol and no copy
    of the steps: [getActiveRun] shows the name and the steps that the row of
    the protocol has when it is called, so once [createProtocol] has revised
    that row the run shows the revised steps. *)
Theorem getActiveRun_shows_the_current_definition :
  (forall (userId : string) (w : World) (run : ProtocolRun.t),
      fst (getActiveRun userId w) = Ok (Some run) ->
      exists p,
        In p (tbl_protocols (db w))
        /\ protocols.id p = ProtocolRun.protocolId run
        /\ ProtocolRun.metadata run
           = Some (RunMetadata.mk (protocols.name p) (protocols.steps p)))
  /\ (forall (protocol : Protocol.t) (userId : string) (w w2 : World)
             (run : ProtocolRun.t) (row : protocols.row),
         primary_key_ok (db w) = true ->
         unique_user_name_ok (db w) = true ->
         fst (getActiveRun userId w) = Ok (Some run) ->
         In row (tbl_protocols (db w)) ->
         protocols.id row = ProtocolRun.protocolId run ->
         protocols.user_id row = Protocol.userId protocol ->
         protocols.name row = Protocol.name protocol ->
         rejects_at (oracle w) (S (tick w)) = false ->
         is_int4 (sum_durations (Protocol.steps protocol)) = true ->
         db w2 = db (after (createProtocol protocol) w) ->
         rejects_at (oracle w2) (tick w2) = false ->
         fst (getActiveRun userId w2)
         = Ok (Some (with_definition run (protocols.name row) (Protocol.steps protocol)))).
Proof.
  split.
  - intros userId w run Hget.
    destruct (getActiveRun_joins _ _ Hget) as [r0 [p [_ [_ [-> [Hp Hid]]]]]].
    exists p. repeat split; auto.
  - intros protocol userId w w2 run row pk uq Hget row_in row_id row_user row_name
      Hq Hfit Hdb Hq2.
    destruct (getActiveRun_joins _ _ Hget) as [r0 [p [_ [Hhd [-> [Hp Hid]]]]]].
    assert (p = row).
    { apply (id_is_row w row pk row_in p Hp). simpl in Hid, row_id. congruence. }
    subst p.
    rewrite getActiveRun_eq, Hq2, Hdb. unfold after.
    rewrite (createProtocol_revises protocol w row uq row_in row_user row_name Hq Hfit).
    simpl. unfold update_where.
    set (g := fun p : protocols.row => if same_key _ _ p then _ else p).
    rewrite (join_after_rewrite g (db w))
      by (intros p; unfold g; destruct (same_key _ _ p); reflexivity).
    rewrite (filter_on_fst (active_of userId) g).
    rewrite (order_by_map latest_first (fun x => (fst x, g (snd x)))) by reflexivity.
    unfold g.
    destruct (order_by latest_first _) as [|x t]; [discriminate|].
    simpl in Hhd. inversion Hhd; subst; clear Hhd. simpl.
    rewrite (row_is_hit protocol row row_user row_name). reflexivity.
Qed.

(** C2, as the spec has it, fails: a run of red light is started, the
    definition is revised to other steps, and the run shows the other
    steps. *)
Lemma revised_steps_show_in_the_run :
  option_map RunMetadata.steps
    (match fst (getActiveRun "kelly" one_run_world) with
     | Ok (Some run) => ProtocolRun.metadata run
     | _ => None
     end) = Some red_light_steps
  /\ fst (createProtocol red_light_revised one_run_world) = Ok 1%N
  /\ option_map RunMetadata.steps
       (match fst (getActiveRun "kelly"
                     (after (createProtocol red_light_revised) one_run_world)) with
        | Ok (Some run) => ProtocolRun.metadata run
        | _ => None
        end) = Some face_steps.
Proof. repeat split. Qed.

Lemma getActiveRun_shows_the_current_definition_witness :
  exists run,
    fst (getActiveRun "kelly" one_run_world) = Ok (Some run)
    /\ fst (getActiveRun "kelly" (after (createProtocol red_light_revised) one_run_world))
       = Ok (Some (with_definition run "red light" face_steps)).
Proof.
  eexists. split; [reflexivity|].
  apply (proj2 getActiveRun_shows_the_current_definition red_light_revised "kelly"
           one_run_world (after (createProtocol red_light_revised) one_run_world) _
           (protocols.mk 1%N "kelly" "red light" (Some "Red light therapy protocol")
              red_light_steps 14 ["health"; "therapy"; "daily"] true (Some 4) 1 1 4));
    try reflexivity.
  left. reflexivity.
Defined.

(* ------------------------------------------------------------------ *)
(** ** The constraints of the schema hold along every sequence of calls *)

Lemma distinct_snoc {A} (eqb : A -> A -> bool) (l : list A) (x : A) :
  distinct eqb l = true ->
  (forall a, In a l -> eqb a x = false) ->
  distinct eqb (l ++ [x]) = true.
Proof.
  induction l as [|y l IH]; simpl; [reflexivity|].
  rewrite !andb_true_iff, !negb_true_iff. intros [Hy Hl] Hx. split.
  - rewrite existsb_app, Hy. simpl. rewrite (Hx y) by (left; reflexivity). reflexivity.
  - apply IH; [exact Hl|]. intros a Ha. apply Hx. right. exact Ha.
Qed.

Lemma map_update_where {A B} (f : A -> B) (c : A -> bool) (set : A -> A) (t : list A) :
  (forall x, f (set x) = f x) -> map f (update_where c set t) = map f t.
Proof.
  intros H. unfold update_where. rewrite map_map. apply map_ext.
  intros x. destruct (c x); [apply H | reflexivity].
Qed.

Lemma existsb_has_id_by_ids i (t t' : list protocols.row) :
  map protocols.id t' = map protocols.id t ->
  existsb (has_id i) t' = existsb (has_id i) t.
Proof.
  intros E.
  assert (H : forall l, existsb (has_id i) l = existsb (fun x => N.eqb x i) (map protocols.id l)).
  { induction l as [|p l IH]; simpl; [reflexivity|]. rewrite IH. reflexivity. }
  rewrite !H, E. reflexivity.
Qed.

(** The constraints depend on the ids and the keys of [protocols] and on the
    references of [protocol_runs] only. *)
Lemma schema_ok_by_columns d d' :
  map protocols.id (tbl_protocols d') = map protocols.id (tbl_protocols d) ->
  map key_of (tbl_protocols d') = map key_of (tbl_protocols d) ->
  map protocol_runs.protocol_id (tbl_protocol_runs d')
    = map protocol_runs.protocol_id (tbl_protocol_runs d) ->
  schema_ok d -> schema_ok d'.
Proof.
  intros Eid Ekey Eref [pk [uq fk]]. unfold schema_ok, primary_key_ok,
    unique_user_name_ok, foreign_key_ok in *.
  rewrite Eid, Ekey. repeat split; try assumption.
  assert (H : forall d0, forallb (fun pr => existsb (has_id (protocol_runs.protocol_id pr))
                                     (tbl_protocols d0)) (tbl_protocol_runs d0)
                         = forallb (fun i => existsb (has_id i) (tbl_protocols d0))
                             (map protocol_runs.protocol_id (tbl_protocol_runs d0))).
  { intros d0. induction (tbl_protocol_runs d0) as [|r l IH]; simpl; [reflexivity|].
    rewrite IH. reflexivity. }
  rewrite H in *. rewrite Eref.
  rewrite forallb_forall in *. intros i Hi.
  rewrite (existsb_has_id_by_ids i _ _ Eid). apply fk, Hi.
Qed.

Lemma sql_upsert_protocol_schema id user_id name description steps total tags is_active :
  stmt_keeps schema_ok
    (sql_upsert_protocol id user_id name description steps total tags is_active).
Proof.
  intros now d rows d' H. unfold sql_upsert_protocol.
  destruct (negb (is_int4 total)); [discriminate|].
  destruct (existsb (same_key user_id name) (tbl_protocols d)) eqn:Ekey.
  - intros E. inversion E; subst; clear E.
    apply schema_ok_by_columns with (d := d); simpl;
      try (apply map_update_where; intros p; reflexivity); auto.
  - destruct (existsb (has_id id) (tbl_protocols d)) eqn:Eid; [discriminate|].
    intros E. inversion E; subst; clear E.
    destruct H as [pk [uq fk]].
    unfold schema_ok, primary_key_ok, unique_user_name_ok, foreign_key_ok in *.
    simpl. rewrite !map_app. simpl. repeat split.
    + apply distinct_snoc; [exact pk|]. intros a Ha.
      apply in_map_iff in Ha. destruct Ha as [p [<- Hp]].
      simpl. destruct (N.eqb (protocols.id p) id) eqn:E; [|reflexivity].
      assert (existsb (has_id id) (tbl_protocols d) = true)
        by (apply existsb_exists; exists p; auto).
      congruence.
    + apply distinct_snoc; [exact uq|]. intros a Ha.
      apply in_map_iff in Ha. destruct Ha as [p [<- Hp]].
      change (key_of (protocols.mk id user_id name description steps total tags
                        is_active None 0 now now)) with (user_id, name).
      destruct (key_eqb (key_of p) (user_id, name)) eqn:E; [|reflexivity].
      assert (existsb (same_key user_id name) (tbl_protocols d) = true)
        by (apply existsb_exists; exists p; auto).
      congruence.
    + rewrite forallb_forall in *. intros r Hr.
      rewrite existsb_app, (fk r Hr). reflexivity.
Qed.

Lemma sql_insert_run_schema id protocol_id user_id :
  stmt_keeps schema_ok (sql_insert_run id protocol_id user_id).
Proof.
  intros now d rows d' [pk [uq fk]]. unfold sql_insert_run.
  destruct (existsb _ _); [discriminate|].
  destruct (existsb (has_id protocol_id) (tbl_protocols d)) eqn:Ep; [|discriminate].
  simpl. intros E. inversion E; subst; clear E.
  unfold schema_ok, primary_key_ok, unique_user_name_ok, foreign_key_ok in *.
  simpl. repeat split; try assumption.
  rewrite forallb_app, fk. simpl. rewrite Ep. reflexivity.
Qed.

Lemma sql_update_last_run_schema protocol_id :
  stmt_keeps schema_ok (sql_update_last_run protocol_id).
Proof.
  intros now d rows d' H. unfold sql_update_last_run.
  destruct (existsb _ _); [discriminate|].
  intros E. inversion E; subst; clear E.
  apply schema_ok_by_columns with (d := d); simpl;
    try (apply map_update_where; intros p; reflexivity); auto.
Qed.

Lemma sql_update_run_step_schema id n :
  stmt_keeps schema_ok (sql_update_run_step id n).
Proof.
  intros now d rows d' H. unfold sql_update_run_step.
  destruct (negb _); [discriminate|].
  intros E. inversion E; subst; clear E.
  apply schema_ok_by_columns with (d := d); simpl;
    try (apply map_update_where; intros p; reflexivity); auto.
Qed.

Lemma sql_complete_run_schema id notes :
  stmt_keeps schema_ok (sql_complete_run id notes).
Proof.
  intros now d rows d' H. unfold sql_complete_run.
  intros E. inversion E; subst; clear E.
  apply schema_ok_by_columns with (d := d); simpl;
    try (apply map_update_where; intros p; reflexivity); auto.
Qed.

Lemma sql_cancel_run_schema id :
  stmt_keeps schema_ok (sql_cancel_run id).
Proof.
  intros now d rows d' H. unfold sql_cancel_run.
  intros E. inversion E; subst; clear E.
  apply schema_ok_by_columns with (d := d); simpl;
    try (apply map_update_where; intros p; reflexivity); auto.
Qed.

Lemma sql_soft_delete_schema id user_id :
  stmt_keeps schema_ok (sql_soft_delete id user_id).
Proof.
  intros now d rows d' H. unfold sql_soft_delete.
  intros E. inversion E; subst; clear E.
  apply schema_ok_by_columns with (d := d); simpl;
    try (apply map_update_where; intros p; reflexivity); auto.
Qed.

(** Primary key, [UNIQUE(user_id, name)] and the foreign key hold after every
    sequence of calls on tables where they hold, the empty tables and the
    sample rows among them. *)
Lemma schema_kept calls w :
  schema_ok (db w) -> schema_ok (db (perform_all calls w)).
Proof.
  apply perform_all_keeps.
  - intros. apply sql_upsert_protocol_schema.
  - apply sql_insert_run_schema.
  - apply sql_update_last_run_schema.
  - apply sql_update_run_step_schema.
  - apply sql_complete_run_schema.
  - apply sql_cancel_run_schema.
  - apply sql_soft_delete_schema.
Qed.

Lemma schema_ok_empty : schema_ok empty_db.
Proof. repeat split. Qed.

Lemma schema_ok_sample id1 id2 now : id1 <> id2 -> schema_ok (sample_db id1 id2 now).
Proof.
  intros Hne. unfold schema_ok, primary_key_ok. simpl.
  apply N.eqb_neq in Hne. rewrite Hne. repeat split.
Qed.

(* ------------------------------------------------------------------ *)
(** ** Properties kept by every call, the handlers and routes included *)

Lemma sql_select_history_reads userId limit now d rows d' :
  sql_select_history userId limit now d = Ok (rows, d') -> d' = d.
Proof.
  unfold sql_select_history. destruct (LIMIT _ _); [|discriminate]. congruence.
Qed.

Lemma sql_select_history_of_reads userId protocolId limit now d rows d' :
  sql_select_history_of userId protocolId limit now d = Ok (rows, d') -> d' = d.
Proof.
  unfold sql_select_history_of. destruct (LIMIT _ _); [|discriminate]. congruence.
Qed.

Lemma getProtocolHistory_keeps (I : Database -> Prop) userId protocolId limit :
  keeps I (getProtocolHistory userId protocolId limit).
Proof.
  unfold getProtocolHistory. apply keeps_log_and_rethrow.
  apply keeps_bind; [|intros rows; apply keeps_ret].
  destruct protocolId as [protocolId|]; apply keeps_pool_query, stmt_keeps_read.
  - apply sql_select_history_of_reads.
  - apply sql_select_history_reads.
Qed.

(** A property that the six writing methods keep is kept by every call. *)
Section KeptByMethods.
Variable I : Database -> Prop.
Hypothesis create_keeps : forall protocol, keeps I (createProtocol protocol).
Hypothesis start_keeps : forall protocolId userId,
  keeps I (startProtocolRun protocolId userId).
Hypothesis step_keeps : forall runId n, keeps I (updateProtocolRunStep runId n).
Hypothesis complete_keeps : forall runId notes,
  keeps I (completeProtocolRun runId notes).
Hypothesis cancel_keeps : forall runId, keeps I (cancelProtocolRun runId).
Hypothesis delete_keeps : forall id userId, keeps I (deleteProtocol id userId).

Lemma start_handler_keeps request timer :
  keeps I (StartProtocolIntentHandler.handle request timer).
Proof.
  unfold StartProtocolIntentHandler.handle.
  destruct request as [[[|c n]|]|]; try apply keeps_ret.
  apply keeps_try_catch; [| intros ?; apply keeps_ret].
  apply keeps_bind; [apply getProtocol_keeps|]. intros [protocol|]; [|apply keeps_ret].
  apply keeps_bind; [apply getActiveRun_keeps|]. intros [run|]; [apply keeps_ret|].
  destruct (Protocol.id protocol); [|apply keeps_throw].
  apply keeps_bind; [apply start_keeps|]. intros runId.
  destruct (nth_error (Protocol.steps protocol) 0); [apply keeps_ret | apply keeps_throw].
Qed.

Lemma start_route_keeps userId protocolName :
  keeps I (api_protocol_start userId protocolName).
Proof.
  unfold api_protocol_start.
  apply keeps_try_catch; [| intros ?; apply keeps_ret].
  apply keeps_bind; [apply getProtocol_keeps|]. intros [protocol|]; [|apply keeps_ret].
  destruct (Protocol.id protocol); [|apply keeps_throw].
  apply keeps_bind; [apply start_keeps|]. intros runId. apply keeps_ret.
Qed.

Lemma create_handler_keeps request parsed :
  keeps I (CreateProtocolIntentHandler.handle request parsed).
Proof.
  unfold CreateProtocolIntentHandler.handle.
  destruct request as [[[|c n]|]|]; try apply keeps_ret.
  apply keeps_try_catch; [| intros ?; apply keeps_ret].
  destruct parsed as [parsedProtocol|]; [|apply keeps_ret].
  apply keeps_bind; [apply getProtocol_keeps|]. intros [existing|]; [apply keeps_ret|].
  apply keeps_bind; [apply create_keeps|]. intros id. apply keeps_ret.
Qed.

Lemma list_route_keeps userId : keeps I (api_protocols userId).
Proof.
  unfold api_protocols.
  apply keeps_try_catch; [| intros ?; apply keeps_ret].
  destruct userId as [[|c n]|]; try apply keeps_ret.
  apply keeps_bind; [apply listProtocols_keeps|]. intros l. apply keeps_ret.
Qed.

Lemma perform_any_keeps c w : I (db w) -> I (db (perform_any c w)).
Proof.
  destruct c as [c| | |]; simpl.
  - destruct c; simpl.
    + apply create_keeps.
    + apply getProtocol_keeps.
    + apply listProtocols_keeps.
    + apply start_keeps.
    + apply step_keeps.
    + apply complete_keeps.
    + apply cancel_keeps.
    + apply getActiveRun_keeps.
    + apply delete_keeps.
    + apply start_handler_keeps.
    + apply start_route_keeps.
  - apply getProtocolHistory_keeps.
  - apply list_route_keeps.
  - apply create_handler_keeps.
Qed.

Lemma perform_any_all_keeps calls :
  forall w, I (db w) -> I (db (perform_any_all calls w)).
Proof.
  unfold perform_any_all. induction calls as [|c calls IH]; intros w H; simpl.
  - exact H.
  - apply IH. apply perform_any_keeps. exact H.
Qed.
End KeptByMethods.

(** The same from the statements. *)
Lemma kept_by_statements (I : Database -> Prop) :
  (forall id user_id name description steps tags is_active,
      stmt_keeps I (sql_upsert_protocol id user_id name description steps
                      (sum_durations steps) tags is_active)) ->
  (forall id protocol_id user_id, stmt_keeps I (sql_insert_run id protocol_id user_id)) ->
  (forall protocol_id, stmt_keeps I (sql_update_last_run protocol_id)) ->
  (forall id n, stmt_keeps I (sql_update_run_step id n)) ->
  (forall id notes, stmt_keeps I (sql_complete_run id notes)) ->
  (forall id, stmt_keeps I (sql_cancel_run id)) ->
  (forall id user_id, stmt_keeps I (sql_soft_delete id user_id)) ->
  forall calls w, I (db w) -> I (db (perform_any_all calls w)).
Proof.
  intros H1 H2 H3 H4 H5 H6 H7. apply perform_any_all_keeps.
  - intros. apply createProtocol_keeps. exact H1.
  - intros. apply startProtocolRun_keeps; assumption.
  - intros. apply updateProtocolRunStep_keeps. exact H4.
  - intros. apply completeProtocolRun_keeps. exact H5.
  - intros. apply cancelProtocolRun_keeps. exact H6.
  - intros. apply deleteProtocol_keeps. exact H7.
Qed.

(* ------------------------------------------------------------------ *)
(** ** Rows are never removed *)

Lemma same_protocol_refl p : same_protocol p p.
Proof. repeat split. Qed.

Lemma same_run_refl r : same_run r r.
Proof. repeat split. Qed.

Lemma tables_grow_refl d : tables_grow d d.
Proof.
  split; intros x Hx; exists x; split; auto using same_protocol_refl, same_run_refl.
Qed.

Lemma rows_remain_step ps rs d d' :
  rows_remain ps rs d -> tables_grow d d' -> rows_remain ps rs d'.
Proof.
  intros [Hp Hr] [Gp Gr]. split.
  - intros p Hin. destruct (Hp p Hin) as [p1 [Hin1 [E1 [E2 [E3 E4]]]]].
    destruct (Gp p1 Hin1) as [p2 [Hin2 [F1 [F2 [F3 F4]]]]].
    exists p2. split; [exact Hin2|]. unfold same_protocol. repeat split; congruence.
  - intros r Hin. destruct (Hr r Hin) as [r1 [Hin1 [E1 [E2 [E3 E4]]]]].
    destruct (Gr r1 Hin1) as [r2 [Hin2 [F1 [F2 [F3 F4]]]]].
    exists r2. split; [exact Hin2|]. unfold same_run. repeat split; congruence.
Qed.

Lemma grow_protocols_updated c set d :
  (forall p, same_protocol p (set p)) ->
  tables_grow d (mkDatabase (update_where c set (tbl_protocols d)) (tbl_protocol_runs d)).
Proof.
  intros Hset. split; simpl.
  - intros p Hp. exists (if c p then set p else p). split.
    + apply in_update_where. exists p. auto.
    + destruct (c p); [apply Hset | apply same_protocol_refl].
  - intros r Hr. exists r. split; [exact Hr | apply same_run_refl].
Qed.

Lemma grow_runs_updated c set d :
  (forall r, same_run r (set r)) ->
  tables_grow d (mkDatabase (tbl_protocols d) (update_where c set (tbl_protocol_runs d))).
Proof.
  intros Hset. split; simpl.
  - intros p Hp. exists p. split; [exact Hp | apply same_protocol_refl].
  - intros r Hr. exists (if c r then set r else r). split.
    + apply in_update_where. exists r. auto.
    + destruct (c r); [apply Hset | apply same_run_refl].
Qed.

Lemma grow_appended d ps rs :
  tables_grow d (mkDatabase (tbl_protocols d ++ ps) (tbl_protocol_runs d ++ rs)).
Proof.
  split; simpl; intros x Hx; exists x;
    (split; [apply in_or_app; left; exact Hx|]);
    auto using same_protocol_refl, same_run_refl.
Qed.

(** Each statement, when it goes through, keeps every row. *)
Lemma statements_grow :
  (forall id user_id name description steps total tags is_active now d rows d',
      sql_upsert_protocol id user_id name description steps total tags is_active now d
        = Ok (rows, d') -> tables_grow d d')
  /\ (forall id protocol_id user_id now d rows d',
         sql_insert_run id protocol_id user_id now d = Ok (rows, d') -> tables_grow d d')
  /\ (forall protocol_id now d rows d',
         sql_update_last_run protocol_id now d = Ok (rows, d') -> tables_grow d d')
  /\ (forall id n now d rows d',
         sql_update_run_step id n now d = Ok (rows, d') -> tables_grow d d')
  /\ (forall id notes now d rows d',
         sql_complete_run id notes now d = Ok (rows, d') -> tables_grow d d')
  /\ (forall id now d rows d',
         sql_cancel_run id now d = Ok (rows, d') -> tables_grow d d')
  /\ (forall id user_id now d rows d',
         sql_soft_delete id user_id now d = Ok (rows, d') -> tables_grow d d').
Proof.
  refine (conj _ (conj _ (conj _ (conj _ (conj _ (conj _ _)))))).
  - intros id user_id name description steps total tags is_active now d rows d'.
    unfold sql_upsert_protocol. destruct (negb _); [discriminate|].
    destruct (existsb (same_key _ _) _).
    + intros E. inversion E; subst. apply grow_protocols_updated.
      intros p. repeat split.
    + destruct (existsb (has_id _) _); [discriminate|].
      intros E. inversion E; subst.
      rewrite <- (app_nil_r (tbl_protocol_runs d)). apply grow_appended.
  - intros id protocol_id user_id now d rows d'. unfold sql_insert_run.
    destruct (existsb _ _); [discriminate|]. destruct (negb _); [discriminate|].
    intros E. inversion E; subst.
    rewrite <- (app_nil_r (tbl_protocols d)). apply grow_appended.
  - intros protocol_id now d rows d'. unfold sql_update_last_run.
    destruct (existsb _ _); [discriminate|].
    intros E. inversion E; subst. apply grow_protocols_updated.
    intros p. repeat split.
  - intros id n now d rows d'. unfold sql_update_run_step.
    destruct (negb _); [discriminate|].
    intros E. inversion E; subst. apply grow_runs_updated. intros r. repeat split.
  - intros id notes now d rows d'. unfold sql_complete_run.
    intros E. inversion E; subst. apply grow_runs_updated. intros r. repeat split.
  - intros id now d rows d'. unfold sql_cancel_run.
    intros E. inversion E; subst. apply grow_runs_updated. intros r. repeat split.
  - intros id user_id now d rows d'. unfold sql_soft_delete.
    intros E. inversion E; subst. apply grow_protocols_updated.
    intros p. repeat split.
Qed.

(** X1. No call removes a row or gives it another identity: after any
    sequence of calls every protocol that was there is there with its id,
    owner, name and creation time, and every run with its id, protocol, owner
    and start time. *)
Theorem rows_are_never_removed :
  forall (calls : list AnyCall) (w : World),
    rows_remain (tbl_protocols (db w)) (tbl_protocol_runs (db w))
      (db (perform_any_all calls w)).
Proof.
  intros calls w.
  destruct statements_grow as [G1 [G2 [G3 [G4 [G5 [G6 G7]]]]]].
  apply kept_by_statements
    with (I := rows_remain (tbl_protocols (db w)) (tbl_protocol_runs (db w)));
    try (intros; intros now d rows d' H E; apply (rows_remain_step H); eauto).
  apply tables_grow_refl.
Qed.

(* ------------------------------------------------------------------ *)
(** ** A finished run stays finished *)

Lemma existsb_run_has_id_by_ids i (t t' : list protocol_runs.row) :
  map protocol_runs.id t' = map protocol_runs.id t ->
  existsb (run_has_id i) t' = existsb (run_has_id i) t.
Proof.
  intros E.
  assert (H : forall l, existsb (run_has_id i) l
                        = existsb (fun x => N.eqb x i) (map protocol_runs.id l)).
  { induction l as [|r l IH]; simpl; [reflexivity|]. rewrite IH. reflexivity. }
  rewrite !H, E. reflexivity.
Qed.

Lemma run_is_over_by_runs runId d d' :
  tbl_protocol_runs d' = tbl_protocol_runs d -> run_is_over runId d -> run_is_over runId d'.
Proof. unfold run_is_over. intros ->. auto. Qed.

Lemma run_is_over_updated runId c set d :
  (forall r, protocol_runs.id (set r) = protocol_runs.id r) ->
  (forall r, protocol_runs.status (set r) = protocol_runs.status r
             \/ protocol_runs.status (set r) <> in_progress) ->
  run_is_over runId d ->
  run_is_over runId
    (mkDatabase (tbl_protocols d) (update_where c set (tbl_protocol_runs d))).
Proof.
  intros Hid Hst [Hex Hover]. split; simpl.
  - rewrite (existsb_run_has_id_by_ids runId (tbl_protocol_runs d)); [exact Hex|].
    apply map_update_where. exact Hid.
  - intros r' Hr' Eid. apply in_update_where in Hr'. destruct Hr' as [r [Hr ->]].
    destruct (c r).
    + rewrite Hid in Eid. destruct (Hst r) as [E | E]; [|exact E].
      rewrite E. apply Hover; assumption.
    + apply Hover; assumption.
Qed.

Lemma sql_upsert_protocol_runs id user_id name description steps total tags is_active
    now d rows d' :
  sql_upsert_protocol id user_id name description steps total tags is_active now d
    = Ok (rows, d') ->
  tbl_protocol_runs d' = tbl_protocol_runs d.
Proof.
  unfold sql_upsert_protocol. destruct (negb _); [discriminate|].
  destruct (existsb (same_key _ _) _).
  - intros E. inversion E. reflexivity.
  - destruct (existsb (has_id _) _); [discriminate|]. intros E. inversion E. reflexivity.
Qed.

Lemma sql_soft_delete_runs id user_id now d rows d' :
  sql_soft_delete id user_id now d = Ok (rows, d') ->
  tbl_protocol_runs d' = tbl_protocol_runs d.
Proof. unfold sql_soft_delete. intros E. inversion E. reflexivity. Qed.

(** X2. A run that is completed or cancelled is never in progress again:
    whatever calls follow, the run is still there and still not
    [in_progress]. *)
Theorem finished_run_stays_finished :
  forall (runId : Uuid) (calls : list AnyCall) (w : World),
    run_is_over runId (db w) ->
    run_is_over runId (db (perform_any_all calls w)).
Proof.
  intros runId. apply kept_by_statements.
  - intros id user_id name description steps tags is_active now d rows d' H E.
    eapply run_is_over_by_runs; [eapply sql_upsert_protocol_runs; exact E | exact H].
  - intros id protocol_id user_id now d rows d' [Hex Hover].
    unfold sql_insert_run.
    destruct (existsb (run_has_id id) (tbl_protocol_runs d)) eqn:Efresh; [discriminate|].
    destruct (negb _); [discriminate|].
    intros E. inversion E; subst; clear E. split; simpl.
    + rewrite existsb_app, Hex. reflexivity.
    + intros r Hr Eid. apply in_app_or in Hr. destruct Hr as [Hr | [<- | []]].
      * apply Hover; assumption.
      * simpl in Eid. subst id. congruence.
  - intros protocol_id now d rows d' H E.
    eapply run_is_over_by_runs; [eapply sql_update_last_run_runs; exact E | exact H].
  - intros id n now d rows d' H. unfold sql_update_run_step.
    destruct (negb _); [discriminate|]. intros E. inversion E; subst; clear E.
    apply run_is_over_updated; auto.
  - intros id notes now d rows d' H. unfold sql_complete_run.
    intros E. inversion E; subst; clear E.
    apply run_is_over_updated; auto. intros r. right. discriminate.
  - intros id now d rows d' H. unfold sql_cancel_run.
    intros E. inversion E; subst; clear E.
    apply run_is_over_updated; auto. intros r. right. discriminate.
  - intros id user_id now d rows d' H E.
    eapply run_is_over_by_runs; [eapply sql_soft_delete_runs; exact E | exact H].
Qed.

Lemma finished_run_stays_finished_witness :
  run_is_over 3%N (db completed_world)
  /\ run_is_over 3%N
       (db (perform_any_all
              [call_of (call_updateProtocolRunStep 3%N 2);
               call_of (call_StartProtocolIntent (IntentRequest (Some "red light"))
                          timer_created);
               call_of (call_cancelProtocolRun 3%N);
               call_getProtocolHistory "kelly" None None]
              completed_world)).
Proof.
  assert (H : run_is_over 3%N (db completed_world)).
  { split; [reflexivity|]. intros r [<- | []] _. discriminate. }
  split; [exact H|].
  apply finished_run_stays_finished. exact H.
Defined.

(* ------------------------------------------------------------------ *)
(** ** The counter of runs *)

Lemma runs_of_snoc i ps runs r :
  List.length (runs_of i (mkDatabase ps (runs ++ [r]))) =
  (List.length (filter (fun r => N.eqb (protocol_runs.protocol_id r) i) runs)
   + (if N.eqb (protocol_runs.protocol_id r) i then 1 else 0))%nat.
Proof.
  unfold runs_of. simpl. rewrite filter_app, length_app. simpl.
  destruct (N.eqb _ i); reflexivity.
Qed.

Lemma runs_of_updated i ps c set runs :
  (forall r, protocol_runs.protocol_id (set r) = protocol_runs.protocol_id r) ->
  List.length (runs_of i (mkDatabase ps (update_where c set runs))) =
  List.length (filter (fun r => N.eqb (protocol_runs.protocol_id r) i) runs).
Proof.
  intros Hset. unfold runs_of, update_where. simpl.
  induction runs as [|r runs IH]; simpl; [reflexivity|].
  assert (E : protocol_runs.protocol_id (if c r then set r else r)
              = protocol_runs.protocol_id r) by (destruct (c r); auto).
  rewrite E. destruct (N.eqb _ i); simpl; rewrite IH; reflexivity.
Qed.

Lemma counters_bounded_runs_updated c set d :
  (forall r, protocol_runs.protocol_id (set r) = protocol_runs.protocol_id r) ->
  counters_bounded d ->
  counters_bounded
    (mkDatabase (tbl_protocols d) (update_where c set (tbl_protocol_runs d))).
Proof.
  intros Hset H p Hp. simpl in Hp. rewrite (runs_of_updated _ _ _ _ _ Hset).
  apply (H p Hp).
Qed.

Lemma counters_bounded_protocols_updated c set d :
  (forall p, protocols.id (set p) = protocols.id p) ->
  (forall p, protocols.run_count (set p) = protocols.run_count p) ->
  counters_bounded d ->
  counters_bounded
    (mkDatabase (update_where c set (tbl_protocols d)) (tbl_protocol_runs d)).
Proof.
  intros Hid Hcount H p' Hp'. simpl in Hp'.
  apply in_update_where in Hp'. destruct Hp' as [p [Hp ->]].
  assert (E1 : protocols.id (if c p then set p else p) = protocols.id p)
    by (destruct (c p); auto).
  assert (E2 : protocols.run_count (if c p then set p else p) = protocols.run_count p)
    by (destruct (c p); auto).
  rewrite E1, E2. apply (H p Hp).
Qed.

Lemma startProtocolRun_counters protocolId userId :
  keeps counters_bounded (startProtocolRun protocolId userId).
Proof.
  intros w H. unfold after. rewrite startProtocolRun_eq. simpl.
  destruct (rejects_at (oracle w) (S (tick w))); [exact H|].
  unfold sql_insert_run.
  destruct (existsb (run_has_id _) _); [exact H|].
  destruct (negb _); [exact H|]. simpl.
  assert (H1 : counters_bounded
                 (mkDatabase (tbl_protocols (db w))
                    (tbl_protocol_runs (db w)
                     ++ [protocol_runs.mk (uuidv4_at (oracle w) (tick w)) protocolId
                           userId (NOW_at (oracle w) (S (tick w))) None in_progress
                           0 None]))).
  { intros p Hp. simpl in Hp. rewrite runs_of_snoc. specialize (H p Hp).
    unfold runs_of in H. lia. }
  destruct (rejects_at (oracle w) (S (S (tick w)))); [exact H1|].
  unfold sql_update_last_run. simpl.
  destruct (existsb (fun p => has_id protocolId p && _) _); simpl; [exact H1|].
  intros p' Hp'. simpl in Hp'. apply in_update_where in Hp'.
  destruct Hp' as [p [Hp ->]]. specialize (H p Hp). unfold runs_of in H.
  unfold has_id. destruct (N.eqb (protocols.id p) protocolId) eqn:E.
  - apply N.eqb_eq in E. simpl. rewrite runs_of_snoc. simpl.
    rewrite E, N.eqb_refl. rewrite E in H. lia.
  - rewrite runs_of_snoc. lia.
Qed.

(** X3. The counter of a protocol is never ahead of its runs: on tables where
    no [run_count] exceeds the number of runs recorded for the protocol (the
    empty tables, the sample rows), no sequence of calls makes one exceed
    it. *)
Theorem run_count_never_exceeds_runs :
  forall (calls : list AnyCall) (w : World),
    counters_bounded (db w) ->
    counters_bounded (db (perform_any_all calls w)).
Proof.
  apply perform_any_all_keeps.
  - intros protocol. apply createProtocol_keeps.
    intros id user_id name description steps tags is_active now d rows d' H.
    unfold sql_upsert_protocol. destruct (negb _); [discriminate|].
    destruct (existsb (same_key _ _) _).
    + intros E. inversion E; subst; clear E.
      apply counters_bounded_protocols_updated; auto.
    + destruct (existsb (has_id _) _); [discriminate|].
      intros E. inversion E; subst; clear E.
      intros p Hp. simpl in Hp. apply in_app_or in Hp.
      destruct Hp as [Hp | [<- | []]]; [apply (H p Hp) | simpl; lia].
  - apply startProtocolRun_counters.
  - intros runId n. apply updateProtocolRunStep_keeps.
    intros id m now d rows d' H. unfold sql_update_run_step.
    destruct (negb _); [discriminate|]. intros E. inversion E; subst; clear E.
    apply counters_bounded_runs_updated; auto.
  - intros runId notes. apply completeProtocolRun_keeps.
    intros id m now d rows d' H. unfold sql_complete_run.
    intros E. inversion E; subst; clear E.
    apply counters_bounded_runs_updated; auto.
  - intros runId. apply cancelProtocolRun_keeps.
    intros id now d rows d' H. unfold sql_cancel_run.
    intros E. inversion E; subst; clear E.
    apply counters_bounded_runs_updated; auto.
  - intros id userId. apply deleteProtocol_keeps.
    intros i u now d rows d' H. unfold sql_soft_delete.
    intros E. inversion E; subst; clear E.
    apply counters_bounded_protocols_updated; auto.
Qed.

Lemma run_count_never_exceeds_runs_witness :
  counters_bounded (sample_db 100%N 101%N 0)
  /\ counters_bounded
       (db (perform_any_all
              [call_of (call_api_protocol_start "kelly" "Red Light");
               call_of (call_startProtocolRun 101%N "kelly");
               call_CreateProtocolIntent (IntentRequest (Some "create nothing"))
                 (Some (ParsedProtocol.mk "nothing" "nothing protocol" [] ["routine"]))]
              (start_of (sample_db 100%N 101%N 0) calm))).
Proof.
  assert (H : counters_bounded (sample_db 100%N 101%N 0)).
  { intros p [<- | [<- | []]]; simpl; lia. }
  split; [exact H|].
  apply run_count_never_exceeds_runs. exact H.
Defined.

(* ------------------------------------------------------------------ *)
(** ** What [ORDER BY] and [LIMIT] return *)


(** With an order that is total and transitive, every row comes before all
    the rows after it. *)
Section Sorting.
Variable A : Type.
Variable before : A -> A -> bool.
Variable R : A -> A -> Prop.
Hypothesis before_R : forall a b, before a b = true -> R a b.
Hypothesis total : forall a b, before a b = false -> R b a.
Hypothesis trans : forall a b c, R a b -> R b c -> R a c.


End Sorting.














(* ------------------------------------------------------------------ *)
(** ** From one call to the next: the life of a run *)

Lemma active_of_true userId r :
  active_of userId r = true <->
  protocol_runs.user_id r = userId /\ protocol_runs.status r = in_progress.
Proof.
  unfold active_of. rewrite andb_true_iff, String.eqb_eq.
  destruct (protocol_runs.status r); simpl; intuition discriminate.
Qed.

Lemma startProtocolRun_ok protocolId userId w runId w' :
  startProtocolRun protocolId userId w = (Ok runId, w') ->
  runId = uuidv4_at (oracle w) (tick w)
  /\ existsb (has_id protocolId) (tbl_protocols (db w)) = true
  /\ db w' =
     mkDatabase
       (update_where (has_id protocolId)
          (set_last_run (NOW_at (oracle w) (S (S (tick w))))) (tbl_protocols (db w)))
       (tbl_protocol_runs (db w)
          ++ [protocol_runs.mk (uuidv4_at (oracle w) (tick w)) protocolId userId
                (NOW_at (oracle w) (S (tick w))) None in_progress 0 None]).
Proof.
  rewrite startProtocolRun_eq. simpl.
  destruct (rejects_at (oracle w) (S (tick w))); [discriminate|].
  unfold sql_insert_run.
  destruct (existsb (run_has_id _) _); [discriminate|].
  destruct (existsb (has_id protocolId) (tbl_protocols (db w))); simpl; [|discriminate].
  destruct (rejects_at (oracle w) (S (S (tick w)))); [discriminate|].
  unfold sql_update_last_run. simpl.
  destruct (existsb (fun p => has_id protocolId p && _) _); simpl; [discriminate|].
  intros E. inversion E; subst. auto.
Qed.

Lemma getActiveRun_returns_active_row userId w run :
  fst (getActiveRun userId w) = Ok (Some run) ->
  exists r0 p,
    run = run_of_row (r0, p)
    /\ In r0 (tbl_protocol_runs (db w))
    /\ active_of userId r0 = true
    /\ In p (tbl_protocols (db w))
    /\ protocols.id p = protocol_runs.protocol_id r0.
Proof.
  rewrite getActiveRun_eq.
  destruct (rejects_at (oracle w) (tick w)); simpl; [discriminate|].
  pose proof (order_by_latest_first_head
                (filter (fun x => active_of userId (fst x))
                   (join_runs_protocols (db w)))) as Hhead.
  destruct (order_by latest_first _) as [|[r0 p] t]; [discriminate|].
  intros E. inversion E; subst; clear E.
  destruct Hhead as [Hin _]. apply filter_In in Hin. destruct Hin as [Hj Ha].
  apply in_join_runs_protocols in Hj. destruct Hj as [Hr [Hp Hid]].
  exists r0, p. auto.
Qed.

Lemma getActiveRun_no_active userId w :
  rejects_at (oracle w) (tick w) = false ->
  active_runs userId (db w) = [] ->
  getActiveRun userId w = (Ok None, next w).
Proof.
  intros Hq Hnone. rewrite getActiveRun_eq, Hq.
  assert (E : filter (fun x => active_of userId (fst x)) (join_runs_protocols (db w)) = []).
  { destruct (filter _ (join_runs_protocols (db w))) as [|[r p] l] eqn:Ef; [reflexivity|].
    exfalso.
    assert (Hin : In (r, p) (filter (fun x => active_of userId (fst x))
                               (join_runs_protocols (db w))))
      by (rewrite Ef; left; reflexivity).
    apply filter_In in Hin. destruct Hin as [Hj Ha].
    apply in_join_runs_protocols in Hj. destruct Hj as [Hr _].
    assert (Hact : In r (active_runs userId (db w))) by (apply filter_In; auto).
    rewrite Hnone in Hact. destruct Hact. }
  rewrite E. reflexivity.
Qed.

(** X6. The run [startProtocolRun] has just started is the one
    [getActiveRun] returns for its owner, at step 0 and with the name and the
    steps of its protocol, provided every other run in progress of the owner
    started earlier. *)
Theorem started_run_is_the_active_run :
  forall (protocolId : Uuid) (userId : string) (w w' w2 : World) (runId : Uuid),
    startProtocolRun protocolId userId w = (Ok runId, w') ->
    (forall r, In r (tbl_protocol_runs (db w)) -> active_of userId r = true ->
               protocol_runs.started_at r < NOW_at (oracle w) (S (tick w))) ->
    db w2 = db w' ->
    rejects_at (oracle w2) (tick w2) = false ->
    exists p,
      In p (tbl_protocols (db w))
      /\ protocols.id p = protocolId
      /\ getActiveRun userId w2 =
         (Ok (Some (ProtocolRun.mk (Some runId) protocolId userId
                      (Some (NOW_at (oracle w) (S (tick w)))) None
                      (Some in_progress) (Some 0) None
                      (Some (RunMetadata.mk (protocols.name p) (protocols.steps p))))),
          next w2).
Proof.
  intros protocolId userId w w' w2 runId Hstart Hlate Hdb Hq2.
  destruct (startProtocolRun_ok _ _ _ Hstart) as [-> [Hex Hw']].
  set (now1 := NOW_at (oracle w) (S (tick w))) in *.
  set (n := protocol_runs.mk (uuidv4_at (oracle w) (tick w)) protocolId userId now1
              None in_progress 0 None) in *.
  rewrite getActiveRun_eq, Hq2, Hdb, Hw'.
  set (d' := mkDatabase _ _).
  pose proof (order_by_latest_first_head
                (filter (fun x => active_of userId (fst x)) (join_runs_protocols d')))
    as Hhead.
  apply existsb_exists in Hex. destruct Hex as [q [Hq Hqid]].
  assert (Hn : In (n, if has_id protocolId q
                      then set_last_run (NOW_at (oracle w) (S (S (tick w)))) q else q)
                 (filter (fun x => active_of userId (fst x)) (join_runs_protocols d'))).
  { apply filter_In. split.
    - apply in_join_runs_protocols. unfold d'. simpl. split.
      + apply in_or_app. right. left. reflexivity.
      + split.
        * apply in_update_where. exists q. auto.
        * rewrite Hqid. simpl. apply N.eqb_eq, Hqid.
    - simpl. unfold n. rewrite active_of_new_run. apply String.eqb_refl. }
  destruct (order_by latest_first _) as [|[r0 p0] t].
  - rewrite Hhead in Hn. destruct Hn.
  - destruct Hhead as [Hin Hmax]. specialize (Hmax _ Hn). simpl in Hmax.
    apply filter_In in Hin. destruct Hin as [Hj Ha]. simpl in Ha.
    apply in_join_runs_protocols in Hj. unfold d' in Hj. simpl in Hj.
    destruct Hj as [Hr0 [Hp0 Hid0]].
    apply in_app_or in Hr0. destruct Hr0 as [Hr0 | [<- | []]].
    + specialize (Hlate r0 Hr0 Ha). unfold n in Hmax. simpl in Hmax. lia.
    + apply in_update_where in Hp0. destruct Hp0 as [p [Hp ->]].
      exists p. split; [exact Hp|]. split.
      * destruct (has_id protocolId p); simpl in Hid0; exact Hid0.
      * destruct (has_id protocolId p); reflexivity.
Qed.

Lemma started_run_is_the_active_run_witness :
  exists p,
    protocols.id p = 1%N
    /\ getActiveRun "kelly" two_runs_world =
       (Ok (Some (ProtocolRun.mk (Some 6%N) 1%N "kelly" (Some 6) None
                    (Some in_progress) (Some 0) None
                    (Some (RunMetadata.mk (protocols.name p) (protocols.steps p))))),
        next two_runs_world).
Proof.
  destruct (@started_run_is_the_active_run 1%N "kelly" one_run_world two_runs_world
              two_runs_world 6%N eq_refl) as [p [_ [Hid Hget]]].
  - intros r [<- | []] _. simpl. lia.
  - reflexivity.
  - reflexivity.
  - exists p. split; [exact Hid | exact Hget].
Defined.

Lemma ended_db runId notes w (m : M bool) :
  m = completeProtocolRun runId notes \/ m = cancelProtocolRun runId ->
  rejects_at (oracle w) (tick w) = false ->
  exists set,
    (forall r, protocol_runs.status (set r) <> in_progress)
    /\ db (after m w) =
       mkDatabase (tbl_protocols (db w))
         (update_where (run_has_id runId) set (tbl_protocol_runs (db w))).
Proof.
  intros [-> | ->] Hq; unfold after.
  - rewrite completeProtocolRun_eq, Hq. eexists. split; [|reflexivity].
    intros r. discriminate.
  - rewrite cancelProtocolRun_eq, Hq. eexists. split; [|reflexivity].
    intros r. discriminate.
Qed.

(** X7. Once [completeProtocolRun] or [cancelProtocolRun] has gone through
    for a run, [getActiveRun] never returns that run, and it returns [null]
    for an owner who had no other run in progress. *)
Theorem ended_run_is_not_the_active_run :
  forall (runId : Uuid) (notes : option string) (m : M bool) (userId : string)
         (w w2 : World),
    m = completeProtocolRun runId notes \/ m = cancelProtocolRun runId ->
    rejects_at (oracle w) (tick w) = false ->
    db w2 = db (after m w) ->
    (forall run, fst (getActiveRun userId w2) = Ok (Some run) ->
                 ProtocolRun.id run <> Some runId)
    /\ (rejects_at (oracle w2) (tick w2) = false ->
        (forall r, In r (tbl_protocol_runs (db w)) -> active_of userId r = true ->
                   protocol_runs.id r = runId) ->
        getActiveRun userId w2 = (Ok None, next w2)).
Proof.
  intros runId notes m userId w w2 Hm Hq Hdb.
  destruct (@ended_db runId notes w m Hm Hq) as [set [Hset Hafter]].
  rewrite Hafter in Hdb.
  assert (Hrows : forall r', In r' (tbl_protocol_runs (db w2)) ->
            active_of userId r' = true ->
            In r' (tbl_protocol_runs (db w)) /\ protocol_runs.id r' <> runId).
  { intros r' Hr' Ha. rewrite Hdb in Hr'. simpl in Hr'.
    apply in_update_where in Hr'. destruct Hr' as [r [Hr ->]].
    unfold run_has_id in *. destruct (N.eqb (protocol_runs.id r) runId) eqn:E.
    - apply active_of_true in Ha. destruct Ha as [_ Ha]. destruct (Hset r Ha).
    - split; [exact Hr | apply N.eqb_neq, E]. }
  split.
  - intros run Hget.
    destruct (getActiveRun_returns_active_row _ _ Hget) as [r0 [p [-> [Hr0 [Ha _]]]]].
    simpl. intros E. inversion E as [Eid].
    destruct (Hrows r0 Hr0 Ha) as [_ Hne]. contradiction.
  - intros Hq2 Honly. apply getActiveRun_no_active; [exact Hq2|].
    unfold active_runs.
    destruct (filter (active_of userId) (tbl_protocol_runs (db w2))) as [|r' l] eqn:Ef;
      [reflexivity|]. exfalso.
    assert (Hin : In r' (filter (active_of userId) (tbl_protocol_runs (db w2))))
      by (rewrite Ef; left; reflexivity).
    apply filter_In in Hin. destruct Hin as [Hr' Ha].
    destruct (Hrows r' Hr' Ha) as [Hr Hne]. apply Hne. apply Honly; assumption.
Qed.

Lemma ended_run_is_not_the_active_run_witness :
  getActiveRun "kelly" completed_world = (Ok None, next completed_world)
  /\ getActiveRun "kelly" (after (cancelProtocolRun 3%N) one_run_world)
     = (Ok None, next (after (cancelProtocolRun 3%N) one_run_world)).
Proof.
  split.
  - apply (proj2 (@ended_run_is_not_the_active_run 3%N (Some "done")
                    (completeProtocolRun 3%N (Some "done")) "kelly" one_run_world
                    completed_world (or_introl eq_refl) eq_refl eq_refl)).
    + reflexivity.
    + intros r [<- | []] _. reflexivity.
  - apply (proj2 (@ended_run_is_not_the_active_run 3%N None
                    (cancelProtocolRun 3%N) "kelly" one_run_world
                    (after (cancelProtocolRun 3%N) one_run_world)
                    (or_intror eq_refl) eq_refl eq_refl)).
    + reflexivity.
    + intros r [<- | []] _. reflexivity.
Defined.

Lemma join_after_runs_rewrite (g : protocol_runs.row -> protocol_runs.row)
    (d : Database) :
  (forall r, protocol_runs.protocol_id (g r) = protocol_runs.protocol_id r) ->
  join_runs_protocols (mkDatabase (tbl_protocols d) (map g (tbl_protocol_runs d)))
  = map (fun x => (g (fst x), snd x)) (join_runs_protocols d).
Proof.
  intros Hg. unfold join_runs_protocols. simpl.
  induction (tbl_protocol_runs d) as [|r runs IH]; simpl; [reflexivity|].
  rewrite map_app, IH, Hg, !map_map. reflexivity.
Qed.

Lemma filter_through_fst {A B} (c : A -> bool) (g : A -> A) (l : list (A * B)) :
  (forall a, c (g a) = c a) ->
  filter (fun x => c (fst x)) (map (fun x => (g (fst x), snd x)) l)
  = map (fun x => (g (fst x), snd x)) (filter (fun x => c (fst x)) l).
Proof.
  intros Hc. induction l as [|x l IH]; simpl; [reflexivity|].
  rewrite Hc. destruct (c (fst x)); simpl; rewrite IH; reflexivity.
Qed.

(** X8. The step [updateProtocolRunStep] writes is the step [getActiveRun]
    reads: when the run [getActiveRun] returns for an owner is given a step,
    the next [getActiveRun] returns the same run at that step. *)
Theorem written_step_is_read_back :
  forall (runId : Uuid) (stepNumber : Z) (userId : string) (w w2 : World)
         (run : ProtocolRun.t),
    fst (getActiveRun userId w) = Ok (Some run) ->
    ProtocolRun.id run = Some runId ->
    is_int4 stepNumber = true ->
    db w2 = db (after (updateProtocolRunStep runId stepNumber) w) ->
    rejects_at (oracle w2) (tick w2) = false ->
    fst (getActiveRun userId w2)
    = Ok (Some (ProtocolRun.mk (ProtocolRun.id run) (ProtocolRun.protocolId run)
                  (ProtocolRun.userId run) (ProtocolRun.startedAt run)
                  (ProtocolRun.completedAt run) (ProtocolRun.status run)
                  (Some stepNumber) (ProtocolRun.notes run)
                  (ProtocolRun.metadata run))).
Proof.
  intros runId stepNumber userId w w2 run Hget Hid Hfit Hdb Hq2.
  assert (Hq : rejects_at (oracle w) (tick w) = false).
  { rewrite getActiveRun_eq in Hget.
    destruct (rejects_at (oracle w) (tick w)); [discriminate | reflexivity]. }
  destruct (getActiveRun_joins _ _ Hget) as [r0 [p [_ [Hhd [-> _]]]]].
  simpl in Hid. inversion Hid as [Hid0]. clear Hid. subst runId.
  rewrite getActiveRun_eq, Hq2, Hdb. unfold after.
  rewrite updateProtocolRunStep_eq, Hq, Hfit. simpl. unfold update_where.
  set (g := fun r : protocol_runs.row => if run_has_id (protocol_runs.id r0) r then _ else r).
  rewrite (join_after_runs_rewrite g (db w))
    by (intros r; unfold g; destruct (run_has_id (protocol_runs.id r0) r); reflexivity).
  rewrite (filter_through_fst (active_of userId) g)
    by (intros r; unfold g; destruct (run_has_id (protocol_runs.id r0) r); reflexivity).
  rewrite (order_by_map latest_first (fun x => (g (fst x), snd x)))
    by (intros a b; unfold g, latest_first; simpl;
        destruct (run_has_id (protocol_runs.id r0) (fst a)),
          (run_has_id (protocol_runs.id r0) (fst b)); reflexivity).
  destruct (order_by latest_first _) as [|x t]; [discriminate|].
  simpl in Hhd. inversion Hhd; subst x; clear Hhd. simpl.
  unfold g, run_has_id. rewrite N.eqb_refl. reflexivity.
Qed.

Lemma written_step_is_read_back_witness :
  option_map ProtocolRun.currentStep
    (match fst (getActiveRun "kelly"
                  (after (updateProtocolRunStep 3%N 2) one_run_world)) with
     | Ok run => run
     | Err _ => None
     end) = Some (Some 2).
Proof.
  rewrite (@written_step_is_read_back 3%N 2 "kelly" one_run_world
             (after (updateProtocolRunStep 3%N 2) one_run_world)
             (run_of_row
                (protocol_runs.mk 3%N 1%N "kelly" 3 None in_progress 0 None,
                 protocols.mk 1%N "kelly" "red light" (Some "Red light therapy protocol")
                   red_light_steps 14 ["health"; "therapy"; "daily"] true (Some 4) 1 1 4))
             eq_refl eq_refl eq_refl eq_refl eq_refl).
  reflexivity.
Defined.

(* ------------------------------------------------------------------ *)
(** ** From one call to the next: definitions *)

Lemma getProtocol_visible userId name w :
  getProtocol userId name w =
    if rejects_at (oracle w) (tick w) then (Err query_rejected, next w)
    else
      (Ok (match filter (visible_as userId name) (tbl_protocols (db w)) with
           | [] => None
           | row :: _ => Some (protocol_of_row row)
           end), next w).
Proof. rewrite getProtocol_eq. reflexivity. Qed.









Lemma deleteProtocol_eq id userId w :
  deleteProtocol id userId w =
    if rejects_at (oracle w) (tick w) then (Err query_rejected, next w)
    else
      (Ok (existsb (owned id userId) (tbl_protocols (db w))),
       mkWorld
         (mkDatabase
            (update_where (owned id userId)
               (set_inactive (NOW_at (oracle w) (tick w))) (tbl_protocols (db w)))
            (tbl_protocol_runs (db w)))
         (S (tick w)) (oracle w)).
Proof.
  unfold deleteProtocol. unfold_service.
  destruct (rejects_at (oracle w) (tick w)); [reflexivity|].
  simpl. rewrite rowCount_positive. reflexivity.
Qed.



(* ------------------------------------------------------------------ *)
(** ** The handlers and the routes *)





(** X13. The create handler never touches a definition kelly can see: when
    an active definition has the parsed name in some letter case, it asks
    whether to update it (or apologises when the query is rejected) and the
    tables stay as they are. *)
Theorem create_handler_keeps_a_visible_definition :
  forall (definition : string) (parsed : ParsedProtocol.t) (w : World),
    definition <> "" ->
    existsb (visible_as "kelly" (ParsedProtocol.name parsed)) (tbl_protocols (db w)) = true ->
    CreateProtocolIntentHandler.handle (IntentRequest (Some definition)) (Some parsed) w
    = (Ok (if rejects_at (oracle w) (tick w)
           then CreateProtocolIntentHandler.trouble
           else CreateProtocolIntentHandler.already_exists (ParsedProtocol.name parsed)),
       next w).
Proof.
  intros definition parsed w Hdef Hvis.
  destruct definition as [|c n]; [congruence|].
  destruct (existsb_filter_cons _ _ Hvis) as [p [rest [Ef _]]].
  unfold CreateProtocolIntentHandler.handle, try_catch, bind.
  rewrite getProtocol_visible, Ef.
  destruct (rejects_at (oracle w) (tick w)); reflexivity.
Qed.

Lemma create_handler_keeps_a_visible_definition_witness :
  CreateProtocolIntentHandler.handle (IntentRequest (Some "create Red Light with 2 minutes chin"))
    (Some (ParsedProtocol.mk "Red Light" "Red Light protocol" face_steps ["routine"]))
    kelly_world
  = (Ok (CreateProtocolIntentHandler.already_exists "Red Light"), next kelly_world).
Proof.
  apply (@create_handler_keeps_a_visible_definition
           "create Red Light with 2 minutes chin"
           (ParsedProtocol.mk "Red Light" "Red Light protocol" face_steps ["routine"])
           kelly_world).
  - discriminate.
  - reflexivity.
Defined.






Lemma filter_update_where_miss {A} (c h : A -> bool) (set : A -> A) (t : list A) :
  (forall x, h x = true -> c x = false) ->
  (forall x, h x = true -> c (set x) = false) ->
  filter c (update_where h set t) = filter c t.
Proof.
  intros Hmiss Hset. unfold update_where.
  induction t as [|x t IH]; simpl; [reflexivity|].
  destruct (h x) eqn:E.
  - rewrite (Hset x E), (Hmiss x E). exact IH.
  - destruct (c x); rewrite IH; reflexivity.
Qed.

(** X16. [createProtocol] and [deleteProtocol] change no definition of
    another owner: whatever they are given and however they end, the rows of
    [protocols] that belong to other owners are afterwards what they were. *)
Theorem definitions_of_other_owners_are_untouched :
  forall (protocol : Protocol.t) (id : Uuid) (userId : string) (w : World),
    of_others (Protocol.userId protocol) (db (after (createProtocol protocol) w))
    = of_others (Protocol.userId protocol) (db w)
    /\ of_others userId (db (after (deleteProtocol id userId) w))
       = of_others userId (db w).
Proof.
  intros protocol id userId w. unfold after, of_others. split.
  - rewrite createProtocol_eq.
    destruct (rejects_at (oracle w) (S (tick w))); [reflexivity|].
    unfold sql_upsert_protocol.
    destruct (negb _); [reflexivity|].
    destruct (existsb (same_key _ _) _).
    + simpl. apply filter_update_where_miss.
      * intros p Hp. apply same_key_true in Hp. destruct Hp as [-> _].
        rewrite String.eqb_refl. reflexivity.
      * intros p Hp. apply same_key_true in Hp. destruct Hp as [Hu _].
        simpl. rewrite Hu, String.eqb_refl. reflexivity.
    + destruct (existsb (has_id _) _); [reflexivity|].
      simpl. rewrite filter_app. simpl. rewrite String.eqb_refl. simpl.
      apply app_nil_r.
  - rewrite deleteProtocol_eq.
    destruct (rejects_at (oracle w) (tick w)); [reflexivity|].
    simpl. apply filter_update_where_miss.
    + intros p Hp. unfold owned in Hp. apply andb_true_iff in Hp.
      destruct Hp as [_ Hu]. rewrite Hu. reflexivity.
    + intros p Hp. unfold owned in Hp. apply andb_true_iff in Hp.
      destruct Hp as [_ Hu]. simpl. rewrite Hu. reflexivity.
Qed.


